(** * img2webp: the batch converter [convert_to_webp.py]

    A shallow embedding of the script's two functions, [convert_to_webp]
    and [main], together with the parts of the Python runtime they call
    ([str] methods, [pathlib], the file system, Pillow), and the properties
    of the conversion workflow proved about them.

    Modelling conventions.
    - A Python [str] is a Rocq [string]; a character is a code point below
      256 (Latin-1), which covers every string the script itself builds.
    - A [pathlib.Path] is the pair of its anchor ([""], ["/"] or ["//"]) and
      its list of components, as [PurePosixPath] keeps them.  Comparison is
      the POSIX one: component-wise and case-sensitive.
    - The file system is a finite map from paths to nodes.  Paths are taken
      lexically: no symbolic links, no [".."] resolution, and a relative path
      is a key of its own (the working directory is the path with no
      component).  A directory entry is a key that extends the key of the
      directory by one component.
    - The map holds the nodes the process can reach.  A path that is not
      among them is one the operating system reports as absent, or one it
      refuses to examine: a name longer than the file system allows
      ([ENAMETOOLONG]), a path below a directory the process may not search
      ([EACCES]).  Which paths are refused, and with which error, is a
      parameter, [refuses]; [exists()], [is_dir()] and [mkdir()] raise the
      error of a refused path.  ([Image.open] is only called on a path that
      [glob] has listed and [save] only on a path that [exists()] has
      examined.)
    - Pillow is a parameter: a type of opened images with their [mode], a
      header decoder, a pixel loader and a WebP encoder.
    - [print] appends its argument to [stdout], one element per call.
    - Python iterates over the set [SUPPORTED_FORMATS] in an order that
      depends on the hash seed; the order is a parameter, [set_order]. *)

From Stdlib Require Import ZArith Ascii String.
From stdpp Require Import base list strings gmap pretty.

Open Scope string_scope.
Open Scope Z_scope.

(** ** Python strings *)

Module Str.

(** [s.upper()], on ASCII letters; the script applies it to the eight
    extensions of [SUPPORTED_FORMATS] only. *)
Definition upper_char (c : ascii) : ascii :=
  let n := nat_of_ascii c in
  if ((97 <=? n) && (n <=? 122))%nat then ascii_of_nat (n - 32) else c.

Fixpoint upper (s : string) : string :=
  match s with
  | "" => ""
  | String c s' => String (upper_char c) (upper s')
  end.

(** [s.lower()], on ASCII letters. *)
Definition lower_char (c : ascii) : ascii :=
  let n := nat_of_ascii c in
  if ((65 <=? n) && (n <=? 90))%nat then ascii_of_nat (n + 32) else c.

Fixpoint lower (s : string) : string :=
  match s with
  | "" => ""
  | String c s' => String (lower_char c) (lower s')
  end.

(** [s.endswith(suffix)] *)
Fixpoint endswith (s suffix : string) : bool :=
  if decide (s = suffix) then true
  else match s with
       | "" => false
       | String _ s' => endswith s' suffix
       end.

(** [s.startswith(prefix)] *)
Fixpoint startswith (s prefix : string) : bool :=
  match prefix, s with
  | "", _ => true
  | String c p', String d s' => if decide (c = d) then startswith s' p' else false
  | String _ _, "" => false
  end.

(** The decimal digits ['0'] to ['9']. *)
Definition decimal_value (c : ascii) : option Z :=
  let n := nat_of_ascii c in
  if ((48 <=? n) && (n <=? 57))%nat then Some (Z.of_nat n - 48) else None.

(** Characters for which [str.isdigit] holds: the decimal digits and,
    below code point 256, the superscripts [U+00B2], [U+00B3], [U+00B9]. *)
Definition isdigit_char (c : ascii) : bool :=
  match decimal_value c with
  | Some _ => true
  | None => let n := nat_of_ascii c in
            ((n =? 178) || (n =? 179) || (n =? 185))%nat
  end.

Fixpoint all_chars (P : ascii → bool) (s : string) : bool :=
  match s with
  | "" => true
  | String c s' => P c && all_chars P s'
  end.

(** [s.isdigit()]: every character is a digit and there is at least one. *)
Definition isdigit (s : string) : bool :=
  match s with
  | "" => false
  | _ => all_chars isdigit_char s
  end.

(** Value of a string of decimal digits, most significant first. *)
Fixpoint decimal (acc : Z) (s : string) : option Z :=
  match s with
  | "" => Some acc
  | String c s' =>
      match decimal_value c with
      | Some d => decimal (10 * acc + d) s'
      | None => None
      end
  end.

(** [s.split('/')] *)
Fixpoint split_slash (s : string) : list string :=
  match s with
  | "" => [""]
  | String c s' =>
      if decide (c = "/"%char) then "" :: split_slash s'
      else match split_slash s' with
           | x :: r => String c x :: r
           | [] => [String c ""]
           end
  end.

(** [s.rpartition('.')] when [s] has a dot: the text before the last dot
    and the text after it. *)
Fixpoint rsplit_dot (s : string) : option (string * string) :=
  match s with
  | "" => None
  | String c s' =>
      match rsplit_dot s' with
      | Some (before, after) => Some (String c before, after)
      | None => if decide (c = "."%char) then Some ("", s') else None
      end
  end.

Definition nonempty (s : string) : bool :=
  match s with "" => false | _ => true end.

End Str.

(** ** Exceptions *)

Inductive oserror :=
  | FileExistsError
  | FileNotFoundError
  | NotADirectoryError
  | IsADirectoryError
  | PermissionError
  | FileNameTooLong.

(** The exceptions that can reach the script.  [SystemExit] is what
    [sys.exit] raises; it is not an [Exception], so [except Exception] lets
    it through.  [PILError] stands for any exception raised inside Pillow
    and carries its [str()]. *)
Inductive exn :=
  | SystemExit (code : Z)
  | OSError (kind : oserror) (filename : string * list string)
  | ValueError (msg : string)
  | PILError (msg : string).

Definition is_Exception (e : exn) : bool :=
  match e with SystemExit _ => false | _ => true end.

(** ** pathlib: pure paths *)

Abbreviation Path := (string * list string)%type.

Module pathlib.

(** The root of a POSIX path string: exactly two leading slashes are kept,
    any other number of leading slashes is one root. *)
Definition anchor_of (s : string) : string :=
  if Str.startswith s "//" && negb (Str.startswith s "///") then "//"
  else if Str.startswith s "/" then "/"
  else "".

(** [Path(s)]: empty components and ["."] components are dropped. *)
Definition Path_of_str (s : string) : Path :=
  (anchor_of s, filter (λ c, c ≠ "" ∧ c ≠ ".") (Str.split_slash s)).

(** [str(p)] *)
Definition str (p : Path) : string :=
  match p with
  | ("", []) => "."
  | (a, ps) => a ++ String.concat "/" ps
  end.

(** [p / n] for a single component [n]. *)
Definition joinpath (p : Path) (n : string) : Path :=
  (p.1, (p.2 ++ [n])%list).

(** [p.name]: the last component, empty when there is none. *)
Definition name (p : Path) : string := default "" (last p.2).

(** [p.parent]; a path without components is its own parent. *)
Definition parent (p : Path) : Path := (p.1, removelast p.2).

(** The suffix of a file name: from the last dot on, when that dot is
    neither the first nor the last character. *)
Definition suffix_of_name (n : string) : string :=
  match Str.rsplit_dot n with
  | Some (before, after) =>
      if Str.nonempty before && Str.nonempty after
      then String "."%char after else ""
  | None => ""
  end.

(** The file name of [p.with_suffix(suffix)]: the old suffix, if any, is
    cut off and the new one appended. *)
Definition with_suffix_name (n suffix : string) : string :=
  match Str.rsplit_dot n with
  | Some (before, after) =>
      if Str.nonempty before && Str.nonempty after
      then before ++ suffix else n ++ suffix
  | None => n ++ suffix
  end.

(** [p.with_suffix(suffix)], for a well-formed [suffix]. *)
Definition with_suffix (p : Path) (suffix : string) : exn + Path :=
  if Str.nonempty (name p)
  then inr (p.1, (removelast p.2 ++ [with_suffix_name (name p) suffix])%list)
  else inl (ValueError (str p ++ " has an empty name")).

(** [p.absolute()] in working directory [cwd]. *)
Definition absolute (cwd p : Path) : Path :=
  if Str.nonempty p.1 then p else (cwd.1, (cwd.2 ++ p.2)%list).

End pathlib.

Infix "</>" := pathlib.joinpath (at level 40, left associativity).

(** [str(e)] *)
Definition str_of_exn (e : exn) : string :=
  match e with
  | SystemExit c => pretty c
  | OSError FileExistsError p =>
      "[Errno 17] File exists: '" ++ pathlib.str p ++ "'"
  | OSError FileNotFoundError p =>
      "[Errno 2] No such file or directory: '" ++ pathlib.str p ++ "'"
  | OSError NotADirectoryError p =>
      "[Errno 20] Not a directory: '" ++ pathlib.str p ++ "'"
  | OSError IsADirectoryError p =>
      "[Errno 21] Is a directory: '" ++ pathlib.str p ++ "'"
  | OSError PermissionError p =>
      "[Errno 13] Permission denied: '" ++ pathlib.str p ++ "'"
  | OSError FileNameTooLong p =>
      "[Errno 36] File name too long: '" ++ pathlib.str p ++ "'"
  | ValueError msg => msg
  | PILError msg => msg
  end.

(** ** The file system *)

Inductive node :=
  | Dir
  | File (data : list Byte.byte).

Abbreviation FS := (gmap Path node).

(** The paths the operating system refuses to examine, each with the error
    it gives for it. *)
Abbreviation Refusals := (Path → option oserror).

Module os.

(** [p.stat()] with the errors that [pathlib] takes for "not there"
    ([ENOENT], [ENOTDIR], [EBADF], [ELOOP]) turned into [None]; any other
    [OSError] is raised. *)
Definition stat (refuses : Refusals) (fs : FS) (p : Path) : exn + option node :=
  match fs !! p with
  | Some n => inr (Some n)
  | None =>
      match refuses p with
      | Some kind => inl (OSError kind p)
      | None => inr None
      end
  end.

(** [p.exists()]: [stat] is tried, the "not there" errors give [False] and
    any other [OSError] is raised again. *)
Definition exists_ (refuses : Refusals) (fs : FS) (p : Path) : exn + bool :=
  match stat refuses fs p with
  | inl e => inl e
  | inr (Some _) => inr true
  | inr None => inr false
  end.

(** [p.is_dir()], with the same treatment of errors. *)
Definition is_dir (refuses : Refusals) (fs : FS) (p : Path) : exn + bool :=
  match stat refuses fs p with
  | inl e => inl e
  | inr (Some Dir) => inr true
  | inr _ => inr false
  end.

(** [os.mkdir(p)] *)
Definition mkdir (refuses : Refusals) (fs : FS) (p : Path) : exn + FS :=
  match fs !! p with
  | Some _ => inl (OSError FileExistsError p)
  | None =>
      match refuses p with
      | Some kind => inl (OSError kind p)
      | None =>
          match fs !! pathlib.parent p with
          | None => inl (OSError FileNotFoundError p)
          | Some (File _) => inl (OSError NotADirectoryError p)
          | Some Dir => inr (<[p := Dir]> fs)
          end
      end
  end.

(** The [except OSError] clause of [Path.mkdir]: the error [e] of
    [os.mkdir] is raised again unless [exist_ok] is set and [p.is_dir()]
    holds; [is_dir] may raise in its turn. *)
Definition mkdir_except (refuses : Refusals) (exist_ok : bool) (fs : FS) (p : Path)
    (e : exn) : exn + FS :=
  if exist_ok then
    match is_dir refuses fs p with
    | inr true => inr fs
    | inr false => inl e
    | inl e' => inl e'
    end
  else inl e.

(** [p.mkdir(parents=False, exist_ok=exist_ok)] *)
Definition Path_mkdir_single (refuses : Refusals) (exist_ok : bool) (fs : FS)
    (p : Path) : exn + FS :=
  match mkdir refuses fs p with
  | inr fs' => inr fs'
  | inl (OSError FileNotFoundError q) => inl (OSError FileNotFoundError q)
  | inl e => mkdir_except refuses exist_ok fs p e
  end.

(** [p.mkdir(parents=True, exist_ok=exist_ok)] for the path with anchor
    [a] and components [reverse rparts]: when [os.mkdir] finds no parent
    the parent is made first, recursively, and the directory after it. *)
Fixpoint Path_mkdir_parents (refuses : Refusals) (exist_ok : bool) (fs : FS)
    (a : string) (rparts : list string) : exn + FS :=
  let p : Path := (a, reverse rparts) in
  match mkdir refuses fs p with
  | inr fs' => inr fs'
  | inl (OSError FileNotFoundError q) =>
      match rparts with
      | [] => inl (OSError FileNotFoundError q)
      | _ :: rparent =>
          match Path_mkdir_parents refuses true fs a rparent with
          | inl e => inl e
          | inr fs1 => Path_mkdir_single refuses exist_ok fs1 p
          end
      end
  | inl e => mkdir_except refuses exist_ok fs p e
  end.

(** [p.mkdir(parents=parents, exist_ok=exist_ok)] *)
Definition Path_mkdir (refuses : Refusals) (parents exist_ok : bool) (fs : FS)
    (p : Path) : exn + FS :=
  if parents then Path_mkdir_parents refuses exist_ok fs p.1 (reverse p.2)
  else Path_mkdir_single refuses exist_ok fs p.

(** The name under which [k] is an entry of directory [p], if it is one. *)
Definition child_name (p k : Path) : option string :=
  match last k.2 with
  | Some n => if decide (k = p </> n) then Some n else None
  | None => None
  end.

(** [os.scandir(p)]: the names of the entries of [p]. *)
Definition scandir (fs : FS) (p : Path) : list string :=
  omap (child_name p) (map_to_list fs).*1.

(** [p.glob('*' + suffix)] for a [suffix] without wildcard characters: the
    entries of [p] whose name ends with [suffix], compared case-sensitively
    as on POSIX. *)
Definition glob (fs : FS) (p : Path) (suffix : string) : list Path :=
  (λ n, p </> n) <$> filter (λ n, Str.endswith n suffix = true) (scandir fs p).

End os.

(** ** The process: file system, standard output, exceptions *)

Record World := mkWorld { fs : FS; stdout : list string }.

(** A computation runs in a world and either returns or raises. *)
Definition M (A : Type) : Type := World → (exn + A) * World.

#[global] Instance M_ret : MRet M := λ A a w, (inr a, w).

#[global] Instance M_bind : MBind M := λ A B k m w,
  match m w with
  | (inr a, w') => k a w'
  | (inl e, w') => (inl e, w')
  end.

Definition raise {A} (e : exn) : M A := λ w, (inl e, w).

Definition lift {A} (r : exn + A) : M A := λ w, (r, w).

Definition print (line : string) : M unit := λ w,
  (inr tt, {| fs := fs w; stdout := (stdout w ++ [line])%list |}).

Definition get_fs : M FS := λ w, (inr (fs w), w).

Definition set_fs (fs' : FS) : M unit := λ w,
  (inr tt, {| fs := fs'; stdout := stdout w |}).

(** [try: body / except Exception as e: handler e] *)
Definition try_except {A} (body : M A) (handler : exn → M A) : M A := λ w,
  match body w with
  | (inl e, w') => if is_Exception e then handler e w' else (inl e, w')
  | r => r
  end.

(** [sys.exit(code)] *)
Definition sys_exit {A} (code : Z) : M A := raise (SystemExit code).

(** [for x in xs: s = body(s, x)], where [s] holds the local variables the
    body assigns. *)
Fixpoint for_ {A S} (xs : list A) (body : S → A → M S) (s : S) : M S :=
  match xs with
  | [] => mret s
  | x :: xs' => s' ← body s x; for_ xs' body s'
  end.

(** [int(s)] for a string that passed [isdigit]: its decimal value, or
    [ValueError] when some digit is not a decimal one.  (CPython also raises
    [ValueError] beyond 4300 digits; that limit is not modelled.) *)
Definition int (s : string) : exn + Z :=
  match (if Str.nonempty s then Str.decimal 0 s else None) with
  | Some v => inr v
  | None => inl (ValueError ("invalid literal for int() with base 10: '" ++ s ++ "'"))
  end.

(** [s * n] *)
Fixpoint str_mul (s : string) (n : nat) : string :=
  match n with
  | O => ""
  | S n' => s ++ str_mul s n'
  end.

(** ** Pillow *)

Record Pillow := {
  (** an opened image *)
  Image : Type;
  (** [img.mode] *)
  mode : Image → string;
  (** what [Image.open] makes of the bytes of a file: it reads the header
      and raises on data it does not identify *)
  decode : list Byte.byte → string + Image;
  (** reading the pixel data, which [save] does first; [Some msg] when it
      raises *)
  load : Image → option string;
  (** the WebP encoder at [quality] and [method] ([None] when the caller
      does not pass one) *)
  webp_encode : Image → Z → option Z → string + list Byte.byte;
}.

Section Pillow.
Context (PIL : Pillow).

(** [Image.open(p)] *)
Definition Image_open (p : Path) : M (Image PIL) :=
  fs ← get_fs;
  match fs !! p with
  | None => raise (OSError FileNotFoundError p)
  | Some Dir => raise (OSError IsADirectoryError p)
  | Some (File data) =>
      match decode PIL data with
      | inl msg => raise (PILError msg)
      | inr img => mret img
      end
  end.

(** [img.save(p, 'WEBP', quality=quality, method=method)].  The pixel data
    is loaded, the file is opened for writing (which truncates it), and the
    encoder's output is written.  When the encoder raises, a file that
    [save] created is removed again and a file that was there before is
    left empty. *)
Definition Image_save (img : Image PIL) (p : Path)
    (quality : Z) (method : option Z) : M unit :=
  match load PIL img with
  | Some msg => raise (PILError msg)
  | None =>
      fs ← get_fs;
      match fs !! p, fs !! pathlib.parent p with
      | Some Dir, _ => raise (OSError IsADirectoryError p)
      | _, None => raise (OSError FileNotFoundError p)
      | _, Some (File _) => raise (OSError NotADirectoryError p)
      | existing, Some Dir =>
          match webp_encode PIL img quality method with
          | inr data => set_fs (<[p := File data]> fs)
          | inl msg =>
              match existing with
              | Some _ => set_fs (<[p := File []]> fs)
              | None => mret tt
              end;;
              raise (PILError msg)
          end
      end
  end.

End Pillow.

(** ** The script *)

(** [SUPPORTED_FORMATS], a Python set, listed as the source writes it. *)
Definition SUPPORTED_FORMATS : list string :=
  [".jpg"; ".jpeg"; ".png"; ".bmp"; ".gif"; ".tiff"; ".tif"; ".webp"].

(** The three counters of [convert_to_webp]. *)
Record counters := mkCounters {
  converted_count : nat;
  skipped_count : nat;
  error_count : nat;
}.

Definition incr_converted (c : counters) : counters :=
  mkCounters (converted_count c + 1) (skipped_count c) (error_count c).
Definition incr_skipped (c : counters) : counters :=
  mkCounters (converted_count c) (skipped_count c + 1) (error_count c).
Definition incr_error (c : counters) : counters :=
  mkCounters (converted_count c) (skipped_count c) (error_count c + 1).

Section Script.
Context (PIL : Pillow).
(** the paths the operating system refuses to examine *)
Context (refuses : Refusals).
(** the working directory, which [absolute()] consults *)
Context (cwd : Path).
(** the order in which this process iterates over [SUPPORTED_FORMATS] *)
Context (set_order : list string).

(** Lines 41-44: the entries of the input folder matched by ['*' + ext] or
    ['*' + ext.upper()], format after format. *)
Definition image_files (fs : FS) (input_path : Path) : list Path :=
  ext ← set_order;
  (os.glob fs input_path ext ++ os.glob fs input_path (Str.upper ext))%list.

(** Line 60: the output file of an image file. *)
Definition output_file_of (output_path image_file : Path) : exn + Path :=
  match pathlib.with_suffix image_file ".webp" with
  | inl e => inl e
  | inr renamed => inr (output_path </> pathlib.name renamed)
  end.

(** Lines 76-82: the body of the [with] statement. *)
Definition save_as_webp (img : Image PIL) (output_file : Path) (quality : Z) : M unit :=
  if bool_decide (mode PIL img ∈ ["RGBA"; "LA"; "P"])
  then Image_save PIL img output_file quality (Some 6)
  else Image_save PIL img output_file quality None.

(** Lines 76-85: the body of the [try] statement. *)
Definition try_block (image_file output_file : Path) (quality : Z)
    (c : counters) : M counters :=
  img ← Image_open PIL image_file;
  save_as_webp img output_file quality;;
  print ("Converted: " ++ pathlib.name image_file ++ " -> "
         ++ pathlib.name output_file);;
  mret (incr_converted c).

(** Lines 87-89: the [except Exception as e] clause. *)
Definition except_block (image_file : Path) (c : counters) (e : exn) : M counters :=
  print ("Error converting " ++ pathlib.name image_file ++ ": " ++ str_of_exn e);;
  mret (incr_error c).

(** Lines 58-89: one turn of the loop over [image_files]. *)
Definition loop_body (output_path : Path) (quality : Z) (overwrite : bool)
    (c : counters) (image_file : Path) : M counters :=
  output_file ← lift (output_file_of output_path image_file);
  if decide (image_file = output_file) then
    print ("Skipping: " ++ pathlib.name image_file ++ " (already .webp)");;
    mret (incr_skipped c)
  else
    fs ← get_fs;
    there ← lift (os.exists_ refuses fs output_file);
    if there && negb overwrite then
      print ("Skipping: " ++ pathlib.name image_file ++ " (output already exists)");;
      mret (incr_skipped c)
    else
      try_except (try_block image_file output_file quality c)
                 (except_block image_file c).

(** Lines 91-95. *)
Definition print_summary (c : counters) : M unit :=
  print (str_mul "-" 50);;
  print "Conversion complete!";;
  print ("  Converted: " ++ pretty (converted_count c));;
  print ("  Skipped: " ++ pretty (skipped_count c));;
  print ("  Errors: " ++ pretty (error_count c)).

(** [convert_to_webp(input_folder, output_folder, quality, overwrite)] *)
Definition convert_to_webp (input_folder output_folder : string)
    (quality : Z) (overwrite : bool) : M unit :=
  let input_path := pathlib.Path_of_str input_folder in
  let output_path := pathlib.Path_of_str output_folder in
  fs0 ← get_fs;
  there ← lift (os.exists_ refuses fs0 input_path);
  if negb there then
    print ("Error: Input folder '" ++ input_folder ++ "' does not exist.")
  else
    directory ← lift (os.is_dir refuses fs0 input_path);
    if negb directory then
      print ("Error: '" ++ input_folder ++ "' is not a directory.")
    else
      fs1 ← lift (os.Path_mkdir refuses true true fs0 output_path);
      set_fs fs1;;
      print ("Output folder: " ++ pathlib.str (pathlib.absolute cwd output_path));;
      let files := image_files fs1 input_path in
      match files with
      | [] => print ("No image files found in '" ++ input_folder ++ "'")
      | _ =>
          print ("Found " ++ pretty (length files) ++ " image(s) to convert");;
          print ("Output quality: " ++ pretty quality);;
          print (str_mul "-" 50);;
          c ← for_ files (loop_body output_path quality overwrite) (mkCounters 0 0 0);
          print_summary c
      end.

Definition usage : list string :=
  [ "Usage: python convert_to_webp.py <input_folder> <output_folder> [quality] [--overwrite]";
    "  input_folder: Path to the folder containing images";
    "  output_folder: Path to the folder where converted images will be saved";
    "  quality: WebP quality (1-100, default: 85)";
    "  --overwrite: Overwrite existing .webp files";
    String "010"%char "Example: python convert_to_webp.py ./input ./output 90 --overwrite" ].

(** Lines 114-121: one turn of the loop over [sys.argv[3:]]; the state is
    the pair of [quality] and [overwrite]. *)
Definition parse_arg (st : Z * bool) (arg : string) : M (Z * bool) :=
  if decide (arg = "--overwrite") then mret (st.1, true)
  else if Str.isdigit arg then
    quality ← lift (int arg);
    if (quality <? 1) || (quality >? 100) then
      print "Error: Quality must be between 1 and 100";;
      sys_exit 1
    else mret (quality, st.2)
  else mret st.

(** [main()] with [sys.argv = argv] *)
Definition main (argv : list string) : M unit :=
  if (length argv <? 3)%nat then
    for_ usage (λ _ line, print line) tt;;
    sys_exit 1
  else
    let input_folder := default "" (argv !! 1%nat) in
    let output_folder := default "" (argv !! 2%nat) in
    st ← for_ (drop 3 argv) parse_arg (85, false);
    convert_to_webp input_folder output_folder st.1 st.2.

(** Running the script: the exit status of the interpreter and the world
    it leaves.  Returning from [main] gives status 0, [sys.exit(code)] gives
    [code], and any other uncaught exception gives status 1 (with a
    traceback on standard error). *)
Definition run_script (argv : list string) (fs0 : FS) : Z * World :=
  match main argv (mkWorld fs0 []) with
  | (inr _, w) => (0, w)
  | (inl (SystemExit code), w) => (code, w)
  | (inl _, w) => (1, w)
  end.

End Script.

(** ** Vocabulary of the statements *)

(** The world after one more [print]. *)
Definition printed (w : World) (line : string) : World :=
  mkWorld (fs w) (stdout w ++ [line]).

Definition quality_error : string := "Error: Quality must be between 1 and 100".

(** How the argument loop ends when it does not return. *)
Definition parse_failure (w : World) (r : (exn + (Z * bool)) * World) : Prop :=
  r = (inl (SystemExit 1), printed w quality_error)
  ∨ ∃ msg, r = (inl (ValueError msg), w).

(** An argument the loop gets past. *)
Definition accepted (a : string) : Prop :=
  a = "--overwrite" ∨ Str.isdigit a = false
  ∨ ∃ v, int a = inr v ∧ 1 ≤ v ≤ 100.


(** What one conversion attempt comes to: the bytes it writes to the output
    file, or the exception it raises and whether an output file that was
    already there has been emptied. *)
Inductive attempt_result :=
  | Wrote (data : list Byte.byte)
  | Failed (e : exn) (truncated : bool).

(** The [method] argument [save] is given for an image. *)
Definition method_for (PIL : Pillow) (img : Image PIL) : option Z :=
  if bool_decide (mode PIL img ∈ ["RGBA"; "LA"; "P"]) then Some 6 else None.

(** The conversion attempt as a function of the three nodes it looks up:
    the image file, the output file and the directory of the output file. *)
Definition attempt (PIL : Pillow) (image_file output_file : Path) (quality : Z)
    (source target target_dir : option node) : attempt_result :=
  match source with
  | None => Failed (OSError FileNotFoundError image_file) false
  | Some Dir => Failed (OSError IsADirectoryError image_file) false
  | Some (File bytes) =>
      match decode PIL bytes with
      | inl msg => Failed (PILError msg) false
      | inr img =>
          match load PIL img with
          | Some msg => Failed (PILError msg) false
          | None =>
              match target, target_dir with
              | Some Dir, _ => Failed (OSError IsADirectoryError output_file) false
              | _, None => Failed (OSError FileNotFoundError output_file) false
              | _, Some (File _) => Failed (OSError NotADirectoryError output_file) false
              | existing, Some Dir =>
                  match webp_encode PIL img quality (method_for PIL img) with
                  | inr data => Wrote data
                  | inl msg => Failed (PILError msg) (bool_decide (is_Some existing))
                  end
              end
          end
      end
  end.

(** The file system after an attempt on [output_file]. *)
Definition fs_after (fs0 : FS) (output_file : Path) (r : attempt_result) : FS :=
  match r with
  | Wrote data => <[output_file := File data]> fs0
  | Failed _ true => <[output_file := File []]> fs0
  | Failed _ false => fs0
  end.


(** The lines the loop prints for a file. *)
Definition skipping_already (image_file : Path) : string :=
  "Skipping: " ++ pathlib.name image_file ++ " (already .webp)".
Definition skipping_exists (image_file : Path) : string :=
  "Skipping: " ++ pathlib.name image_file ++ " (output already exists)".
Definition converted_line (image_file output_file : Path) : string :=
  "Converted: " ++ pathlib.name image_file ++ " -> " ++ pathlib.name output_file.
Definition error_line (image_file : Path) (e : exn) : string :=
  "Error converting " ++ pathlib.name image_file ++ ": " ++ str_of_exn e.

(** The five lines of the summary. *)
Definition summary_lines (c : counters) : list string :=
  [ str_mul "-" 50; "Conversion complete!";
    "  Converted: " ++ pretty (converted_count c);
    "  Skipped: " ++ pretty (skipped_count c);
    "  Errors: " ++ pretty (error_count c) ].

(** An image file the loop can name an output file for. *)
Definition named (out f : Path) : Prop := ∃ o, output_file_of out f = inr o.



(** The first lines [convert_to_webp] prints once it has image files. *)
Definition header_lines (cwd output_path : Path) (found : nat) (quality : Z) : list string :=
  [ "Output folder: " ++ pathlib.str (pathlib.absolute cwd output_path);
    "Found " ++ pretty found ++ " image(s) to convert";
    "Output quality: " ++ pretty quality;
    str_mul "-" 50 ].

Definition missing_line (input_folder : string) : string :=
  "Error: Input folder '" ++ input_folder ++ "' does not exist.".
Definition not_a_directory_line (input_folder : string) : string :=
  "Error: '" ++ input_folder ++ "' is not a directory.".
Definition no_images_line (input_folder : string) : string :=
  "No image files found in '" ++ input_folder ++ "'".

(** ** A small Pillow and small folders, for concrete runs *)

Module Example.
Import Byte.

(** The first byte of a file names the mode of the image it holds; a file
    that starts with any other byte is not an image. *)
Definition mode_of_byte (b : byte) : option string :=
  match b with
  | x01 => Some "RGB"
  | x02 => Some "RGBA"
  | x03 => Some "P"
  | x04 => Some "LA"
  | x05 => Some "PA"
  | x06 => Some "L"
  | _ => None
  end.

(** An image is its mode byte and the rest of the file.  Pixel data that
    starts with [xff] cannot be loaded and pixel data that starts with [xfe]
    cannot be encoded.  The encoder writes three bytes: the mode byte, the
    quality and the method, which is 4 when the caller gives none. *)
Definition PIL : Pillow := {|
  Image := byte * list byte;
  mode := λ img, default "" (mode_of_byte img.1);
  decode := λ bytes,
    match bytes with
    | b :: rest =>
        match mode_of_byte b with
        | Some _ => inr (b, rest)
        | None => inl "cannot identify image file"
        end
    | [] => inl "cannot identify image file"
    end;
  load := λ img,
    match img.2 with
    | xff :: _ => Some "image file is truncated"
    | _ => None
    end;
  webp_encode := λ img quality method,
    match img.2 with
    | xfe :: _ => inl "cannot write file as WebP (encoder returned None)"
    | _ => inr [img.1; default x00 (of_N (Z.to_N quality));
                default x00 (of_N (Z.to_N (default 4 method)))]
    end;
|}.

Definition cwd : Path := ("/", ["home"; "user"]).

(** The length of [os.fsencode(s)]: UTF-8 takes two bytes for a code point
    from 128 on. *)
Definition encoded_length (s : string) : nat :=
  (String.length s
   + length (filter (λ c, 128 ≤ nat_of_ascii c)%nat (list_ascii_of_string s)))%nat.

(** The longest file name, in bytes, that Linux file systems take. *)
Definition NAME_MAX : nat := 255.

(** This operating system refuses the paths with a component of more than
    [NAME_MAX] bytes. *)
Definition refuses : Refusals := λ p,
  if existsb (λ n, NAME_MAX <? encoded_length n)%nat p.2
  then Some FileNameTooLong else None.

Definition script : string := "convert_to_webp.py".

(** [photos/]: [a.png] (RGBA), [b.jpg] (RGB) and [c.webp] (RGB). *)
Definition photos : FS :=
  list_to_map [ (("", []), Dir); (("", ["photos"]), Dir);
                (("", ["photos"; "a.png"]), File [x02; x10]);
                (("", ["photos"; "b.jpg"]), File [x01; x20]);
                (("", ["photos"; "c.webp"]), File [x01; x30]) ].


(** [scans/]: one file, [photo.Jpg]. *)
Definition scans : FS :=
  list_to_map [ (("", []), Dir); (("", ["scans"]), Dir);
                (("", ["scans"; "photo.Jpg"]), File [x01; x10]) ].

(** [mixed/]: [bad.png] is not an image, [good.png] is, and the pixel data of
    [worse.png] cannot be encoded. *)
Definition mixed : FS :=
  list_to_map [ (("", []), Dir); (("", ["mixed"]), Dir);
                (("", ["mixed"; "bad.png"]), File [x00; x10]);
                (("", ["mixed"; "good.png"]), File [x01; x10]);
                (("", ["mixed"; "worse.png"]), File [x01; xfe]) ].

(** [webps/]: one file, [c.webp]. *)
Definition webps : FS :=
  list_to_map [ (("", []), Dir); (("", ["webps"]), Dir);
                (("", ["webps"; "c.webp"]), File [x01; x10]) ].

(** A file name of 255 bytes: 251 times [a] and [.png]. *)
Definition long_name : string := str_mul "a" 251 ++ ".png".

(** [long/]: [b.jpg] and a file with the longest name there can be. *)
Definition long : FS :=
  list_to_map [ (("", []), Dir); (("", ["long"]), Dir);
                (("", ["long"; "b.jpg"]), File [x01; x10]);
                (("", ["long"; long_name]), File [x01; x20]) ].

(** [tiffs/]: one file, [d.tif], a palette image with alpha (mode PA). *)
Definition tiffs : FS :=
  list_to_map [ (("", []), Dir); (("", ["tiffs"]), Dir);
                (("", ["tiffs"; "d.tif"]), File [x05; x10]) ].

End Example.

(** ** The claims that fail, as they are worded *)




(** C8 as worded: with [overwrite] off, an image file whose output file
    already exists is skipped with the "output already exists" line. *)
Definition existing_output_is_skipped_as_existing (PIL : Pillow) (refuses : Refusals)
    (output_path image_file : Path) (quality : Z) (c : counters) (w : World) : Prop :=
  ∀ output_file,
    output_file_of output_path image_file = inr output_file →
    os.exists_ refuses (fs w) output_file = inr true →
    loop_body PIL refuses output_path quality false c image_file w
      = (inr (incr_skipped c), printed w (skipping_exists image_file)).

(** The pixel formats C9 speaks of, read against Pillow's list of modes:
    the modes with an alpha band are LA, PA, RGBA and the premultiplied La and
    RGBa; the palette modes are P and PA. *)
Definition carries_alpha (m : string) : bool :=
  bool_decide (m ∈ ["RGBA"; "LA"; "PA"; "RGBa"; "La"]).
Definition palette_indexed (m : string) : bool :=
  bool_decide (m ∈ ["P"; "PA"]).

(** C9 as worded: an image whose mode carries alpha or is palette-indexed is
    saved with [method=6]. *)
Definition transparent_modes_get_method_6 (PIL : Pillow) : Prop :=
  ∀ (img : Image PIL) (output_file : Path) (quality : Z),
    carries_alpha (mode PIL img) || palette_indexed (mode PIL img) = true →
    save_as_webp PIL img output_file quality
      = Image_save PIL img output_file quality (Some 6).

(** An image file that a run without [overwrite] leaves the file system
    alone for: its output file is the file itself, or is there already, or
    is reported absent and the attempt to convert the file fails. *)
Definition settled (PIL : Pillow) (refuses : Refusals) (output_path : Path) (quality : Z)
    (fs0 : FS) (image_file : Path) : Prop :=
  ∃ output_file,
    output_file_of output_path image_file = inr output_file
    ∧ (image_file = output_file
       ∨ is_Some (fs0 !! output_file)
       ∨ refuses output_file = None
         ∧ ∃ e, attempt PIL image_file output_file quality
                  (fs0 !! image_file) None (fs0 !! pathlib.parent output_file)
                = Failed e false).

(** The sixteen suffixes [convert_to_webp] globs for: every format as it is
    listed and in upper case. *)
Definition glob_suffixes : list string :=
  (SUPPORTED_FORMATS ++ (Str.upper <$> SUPPORTED_FORMATS))%list.
(** * Properties *)

(** ** Strings *)

Module StrFacts.
Import Str.

Lemma app_nil_l (s : string) : "" ++ s = s.
Proof. reflexivity. Qed.

Lemma app_cons (c : ascii) (a b : string) :
  String c a ++ b = String c (a ++ b).
Proof. reflexivity. Qed.


Lemma app_assoc (a b c : string) : (a ++ b) ++ c = a ++ (b ++ c).
Proof. induction a as [|x a IH]; [done | by rewrite !app_cons, IH]. Qed.

Lemma app_length (a b : string) :
  String.length (a ++ b) = (String.length a + String.length b)%nat.
Proof.
  induction a as [|x a IH]; [done | rewrite app_cons; simpl; by rewrite IH].
Qed.

Lemma app_eq_nil (a b : string) : a ++ b = "" → a = "" ∧ b = "".
Proof. destruct a; [done | rewrite app_cons; discriminate]. Qed.

Lemma app_inv_tail (a b c : string) : a ++ c = b ++ c → a = b.
Proof.
  revert b. induction a as [|x a IH]; intros [|y b] H.
  - done.
  - apply (f_equal String.length) in H.
    rewrite app_nil_l, app_cons in H. simpl in H.
    rewrite app_length in H. lia.
  - apply (f_equal String.length) in H.
    rewrite app_nil_l, app_cons in H. simpl in H.
    rewrite app_length in H. lia.
  - rewrite !app_cons in H. injection H as -> H. f_equal. by apply IH.
Qed.

End StrFacts.

(** ** Running computations *)

Lemma bind_run {A B} (m : M A) (k : A → M B) (w : World) :
  (m ≫= k) w = match m w with
               | (inr a, w') => k a w'
               | (inl e, w') => (inl e, w')
               end.
Proof. reflexivity. Qed.

Lemma bind_returns {A B} (m : M A) (k : A → M B) w a w' :
  m w = (inr a, w') → (m ≫= k) w = k a w'.
Proof. intros H. by rewrite bind_run, H. Qed.

Lemma bind_raises {A B} (m : M A) (k : A → M B) w e w' :
  m w = (inl e, w') → (m ≫= k) w = (inl e, w').
Proof. intros H. by rewrite bind_run, H. Qed.

Lemma for_cons {A S} (x : A) (xs : list A) (body : S → A → M S) (s : S) w :
  for_ (x :: xs) body s w = (body s x ≫= for_ xs body) w.
Proof. reflexivity. Qed.

Lemma for_app {A S} (xs ys : list A) (body : S → A → M S) (s : S) w :
  for_ (xs ++ ys) body s w = (for_ xs body s ≫= for_ ys body) w.
Proof.
  revert s w. induction xs as [|x xs IH]; intros s w; [reflexivity|].
  rewrite <- app_comm_cons, for_cons, !bind_run, for_cons, bind_run.
  destruct (body s x w) as [[e|s'] w']; [reflexivity|].
  by rewrite IH, bind_run.
Qed.


Lemma print_run line w : print line w = (inr tt, printed w line).
Proof. reflexivity. Qed.

(** ** Command-line arguments *)


Lemma decimal_all_digits acc s v :
  Str.decimal acc s = Some v → Str.all_chars Str.isdigit_char s = true.
Proof.
  revert acc. induction s as [|c s IH]; intros acc H; [done|].
  simpl in *. unfold Str.isdigit_char.
  destruct (Str.decimal_value c) as [d|]; [|done]. simpl. eauto.
Qed.

(** A string [int] accepts is one [isdigit] accepts. *)
Lemma int_isdigit a v : int a = inr v → Str.isdigit a = true.
Proof.
  unfold int. destruct a as [|c a]; [done|]. simpl Str.nonempty. cbv iota.
  destruct (Str.decimal 0 (String c a)) as [v'|] eqn:E; [|done].
  intros _. eapply decimal_all_digits, E.
Qed.

Lemma int_not_overwrite a v : int a = inr v → a ≠ "--overwrite".
Proof. intros H ->. vm_compute in H. discriminate. Qed.

(** An argument the loop has no branch for leaves both variables alone. *)
Lemma parse_arg_other st a w :
  a ≠ "--overwrite" → Str.isdigit a = false → parse_arg st a w = (inr st, w).
Proof.
  intros Hne Hd. unfold parse_arg. rewrite decide_False by done.
  by rewrite Hd.
Qed.

Lemma parse_arg_overwrite st w :
  parse_arg st "--overwrite" w = (inr (st.1, true), w).
Proof. reflexivity. Qed.

Lemma parse_arg_quality st a v w :
  int a = inr v →
  parse_arg st a w =
    if (v <? 1) || (v >? 100)
    then (inl (SystemExit 1), printed w quality_error)
    else (inr (v, st.2), w).
Proof.
  intros Hv. unfold parse_arg.
  rewrite decide_False by (by eapply int_not_overwrite).
  rewrite (int_isdigit _ _ Hv), Hv.
  rewrite bind_run. unfold lift.
  by destruct ((v <? 1) || (v >? 100)).
Qed.

(** The three ways one turn of the argument loop can end. *)
Lemma parse_arg_shape st a w :
  (∃ st', parse_arg st a w = (inr st', w))
  ∨ parse_arg st a w = (inl (SystemExit 1), printed w quality_error)
  ∨ (∃ msg, parse_arg st a w = (inl (ValueError msg), w)).
Proof.
  destruct (decide (a = "--overwrite")) as [->|Hne].
  { left. eexists. apply parse_arg_overwrite. }
  destruct (Str.isdigit a) eqn:Hd.
  2:{ left. eexists. by apply parse_arg_other. }
  destruct (int a) as [e|v] eqn:Hv.
  - right; right. unfold parse_arg. rewrite decide_False, Hd, Hv by done.
    unfold int in Hv.
    destruct (if Str.nonempty a then Str.decimal 0 a else None); [done|].
    injection Hv as <-. eexists. reflexivity.
  - rewrite (parse_arg_quality st a v w Hv).
    destruct ((v <? 1) || (v >? 100)); [right; by left | left; by eexists].
Qed.


Lemma parse_args_shape extras st w :
  (∃ st', for_ extras parse_arg st w = (inr st', w))
  ∨ parse_failure w (for_ extras parse_arg st w).
Proof.
  revert st. induction extras as [|a extras IH]; intros st.
  { left. by eexists. }
  rewrite for_cons, bind_run.
  destruct (parse_arg_shape st a w) as [[st' ->]|[->| [msg ->]]].
  - apply IH.
  - right. by left.
  - right. right. by eexists.
Qed.

Lemma parse_args_out_of_range extras a v st w :
  a ∈ extras → int a = inr v → v < 1 ∨ 100 < v →
  parse_failure w (for_ extras parse_arg st w).
Proof.
  intros Hin Hv Hrange. revert st.
  induction extras as [|b extras IH]; intros st; [by apply elem_of_nil in Hin|].
  rewrite for_cons, bind_run.
  apply elem_of_cons in Hin as [<-|Hin].
  - rewrite (parse_arg_quality st a v w Hv).
    replace ((v <? 1) || (v >? 100)) with true; [by left|].
    symmetry. apply orb_true_iff. rewrite Z.ltb_lt, Z.gtb_gt. lia.
  - destruct (parse_arg_shape st b w) as [[st' ->]|[->| [msg ->]]].
    + by apply IH.
    + by left.
    + right. by eexists.
Qed.


Lemma parse_args_accepted extras st w :
  Forall accepted extras → ∃ st', for_ extras parse_arg st w = (inr st', w).
Proof.
  intros H. revert st. induction H as [|a extras Ha _ IH]; intros st.
  { by eexists. }
  rewrite for_cons, bind_run.
  destruct Ha as [->|[Hd|(v & Hv & Hr)]].
  - rewrite parse_arg_overwrite. apply IH.
  - destruct (decide (a = "--overwrite")) as [->|Hne].
    + rewrite parse_arg_overwrite. apply IH.
    + rewrite parse_arg_other by done. apply IH.
  - rewrite (parse_arg_quality st a v w Hv).
    replace ((v <? 1) || (v >? 100)) with false; [apply IH|].
    symmetry. apply orb_false_iff. rewrite Z.ltb_ge, Z.gtb_ltb, Z.ltb_ge. lia.
Qed.

Section Arguments.
Context (PIL : Pillow) (refuses : Refusals) (cwd : Path) (set_order : list string).

Lemma main_run (prog inp outp : string) (extras : list string) w :
  main PIL refuses cwd set_order (prog :: inp :: outp :: extras) w =
    (for_ extras parse_arg (85, false)
     ≫= λ st, convert_to_webp PIL refuses cwd set_order inp outp st.1 st.2) w.
Proof. reflexivity. Qed.

Lemma drop3_shape (argv : list string) a :
  a ∈ drop 3 argv →
  ∃ prog inp outp extras, argv = prog :: inp :: outp :: extras ∧ a ∈ extras.
Proof.
  destruct argv as [|prog [|inp [|outp extras]]]; simpl;
    try (intros H; by apply elem_of_nil in H).
  intros H. by exists prog, inp, outp, extras.
Qed.

(** C5.  A quality argument that is a string of decimal digits with a
    value outside 1..100 (such as ["0"] or ["101"]) ends the process with
    exit status 1 before [convert_to_webp] is called: the file system is
    as it was and standard output holds at most the error line. *)
Theorem quality_out_of_range_is_fatal (argv : list string) (a : string) (v : Z) (fs0 : FS) :
  a ∈ drop 3 argv → int a = inr v → v < 1 ∨ 100 < v →
  (run_script PIL refuses cwd set_order argv fs0).1 = 1
  ∧ (run_script PIL refuses cwd set_order argv fs0).1 ≠ 0
  ∧ fs (run_script PIL refuses cwd set_order argv fs0).2 = fs0
  ∧ (stdout (run_script PIL refuses cwd set_order argv fs0).2 = []
     ∨ stdout (run_script PIL refuses cwd set_order argv fs0).2 = [quality_error]).
Proof.
  intros Hin Hv Hrange.
  apply drop3_shape in Hin as (prog & inp & outp & extras & -> & Hin).
  unfold run_script. rewrite main_run, bind_run.
  destruct (parse_args_out_of_range extras a v (85, false) (mkWorld fs0 [])
              Hin Hv Hrange) as [->|[msg ->]]; simpl; auto.
Qed.

(** C10.  An extra argument that is neither ["--overwrite"] nor a digit
    string is passed over: its turn of the loop returns the quality and the
    overwrite flag it was given and prints nothing, the script runs exactly
    as it does without that argument, and alone it leaves the quality at 85. *)
Theorem unrecognised_argument_is_ignored (a : string) :
  a ≠ "--overwrite" → Str.isdigit a = false →
  (∀ st w, parse_arg st a w = (inr st, w))
  ∧ (∀ prog inp outp pre post fs0,
       run_script PIL refuses cwd set_order (prog :: inp :: outp :: pre ++ a :: post) fs0
       = run_script PIL refuses cwd set_order (prog :: inp :: outp :: pre ++ post) fs0)
  ∧ (∀ prog inp outp w,
       main PIL refuses cwd set_order [prog; inp; outp; a] w
       = convert_to_webp PIL refuses cwd set_order inp outp 85 false w).
Proof.
  intros Hne Hd. split; [|split].
  - intros st w. by apply parse_arg_other.
  - intros prog inp outp pre post fs0. unfold run_script.
    rewrite !main_run, !bind_run, !for_app, !bind_run.
    destruct (for_ pre parse_arg (85, false) (mkWorld fs0 [])) as [[e|st] w];
      [done|].
    by rewrite for_cons, bind_run, parse_arg_other.
  - intros prog inp outp w.
    by rewrite main_run, bind_run, for_cons, bind_run, parse_arg_other.
Qed.

End Arguments.

(** ** Paths and directory listings *)

Lemma name_joinpath (p : Path) (n : string) : pathlib.name (p </> n) = n.
Proof. unfold pathlib.name, pathlib.joinpath. simpl. by rewrite last_snoc. Qed.

Lemma parent_joinpath (p : Path) (n : string) : pathlib.parent (p </> n) = p.
Proof.
  unfold pathlib.parent, pathlib.joinpath. simpl.
  rewrite removelast_last. by destruct p.
Qed.

Lemma joinpath_inj (p q : Path) (n m : string) : p </> n = q </> m → p = q ∧ n = m.
Proof.
  destruct p as [a ps], q as [b qs]. unfold pathlib.joinpath. simpl.
  intros H. injection H as -> H. apply app_inj_tail in H as [-> ->]. done.
Qed.

Lemma nonempty_true (s : string) : Str.nonempty s = true ↔ s ≠ "".
Proof. by destruct s. Qed.

Lemma output_file_of_joinpath (out p : Path) (n : string) :
  n ≠ "" →
  output_file_of out (p </> n) = inr (out </> pathlib.with_suffix_name n ".webp").
Proof.
  intros Hn. unfold output_file_of, pathlib.with_suffix.
  rewrite name_joinpath. apply nonempty_true in Hn. rewrite Hn.
  f_equal. f_equal. unfold pathlib.name, pathlib.joinpath. simpl.
  by rewrite last_snoc.
Qed.

Lemma child_name_Some (p k : Path) (n : string) :
  os.child_name p k = Some n ↔ k = p </> n.
Proof.
  unfold os.child_name. split.
  - destruct (last k.2) as [m|]; [|done].
    case_decide; [|done]. by intros [= <-].
  - intros ->. unfold pathlib.joinpath at 1. simpl. rewrite last_snoc.
    by rewrite decide_True.
Qed.

Lemma elem_of_scandir (fs0 : FS) (p : Path) (n : string) :
  n ∈ os.scandir fs0 p ↔ is_Some (fs0 !! (p </> n)).
Proof.
  unfold os.scandir. rewrite list_elem_of_omap. split.
  - intros (k & Hk & Hn). apply child_name_Some in Hn as ->.
    apply list_elem_of_fmap in Hk as ([k' x] & -> & Hx).
    apply elem_of_map_to_list in Hx. by exists x.
  - intros [x Hx]. exists (p </> n). split; [|by apply child_name_Some].
    apply list_elem_of_fmap. exists (p </> n, x). split; [done|].
    by apply elem_of_map_to_list.
Qed.

Lemma elem_of_glob (fs0 : FS) (p : Path) (suffix : string) (f : Path) :
  f ∈ os.glob fs0 p suffix ↔
  ∃ n, f = p </> n ∧ is_Some (fs0 !! f) ∧ Str.endswith n suffix = true.
Proof.
  unfold os.glob. rewrite list_elem_of_fmap. split.
  - intros (n & -> & Hn). apply list_elem_of_filter in Hn as [He Hn].
    apply elem_of_scandir in Hn. by exists n.
  - intros (n & -> & Hx & He). exists n. split; [done|].
    apply list_elem_of_filter. split; [done|]. by apply elem_of_scandir.
Qed.

(** The image files are the entries of the input folder whose name ends with
    one of the formats, spelled as listed or in upper case. *)
Lemma elem_of_image_files (set_order : list string) (fs0 : FS) (p f : Path) :
  f ∈ image_files set_order fs0 p ↔
  ∃ n ext, f = p </> n ∧ is_Some (fs0 !! f) ∧ ext ∈ set_order
           ∧ (Str.endswith n ext = true ∨ Str.endswith n (Str.upper ext) = true).
Proof.
  unfold image_files. rewrite list_elem_of_bind. split.
  - intros (ext & Hf & Hext). apply elem_of_app in Hf as [Hf|Hf];
      apply elem_of_glob in Hf as (n & -> & Hx & He); exists n, ext; auto.
  - intros (n & ext & -> & Hx & Hext & He). exists ext. split; [|done].
    apply elem_of_app. destruct He as [He|He]; [left|right];
      apply elem_of_glob; by exists n.
Qed.

(** ** Examining a path *)

Section Stat.
Context (refuses : Refusals).

Lemma exists_Some (fs0 : FS) (p : Path) :
  os.exists_ refuses fs0 p = inr true ↔ is_Some (fs0 !! p).
Proof.
  unfold os.exists_, os.stat. destruct (fs0 !! p).
  - split; [by eexists|done].
  - split; [by destruct (refuses p)|by intros [? ?]].
Qed.

Lemma exists_None (fs0 : FS) (p : Path) :
  os.exists_ refuses fs0 p = inr false ↔ fs0 !! p = None ∧ refuses p = None.
Proof.
  unfold os.exists_, os.stat. destruct (fs0 !! p).
  - split; [done|by intros [? ?]].
  - destruct (refuses p); split; try done; by intros [? ?].
Qed.

(** [exists()] raises for the paths that are not there and that the
    operating system refuses, and for no other. *)
Lemma exists_raises (fs0 : FS) (p : Path) (e : exn) :
  os.exists_ refuses fs0 p = inl e
  ↔ fs0 !! p = None ∧ ∃ kind, refuses p = Some kind ∧ e = OSError kind p.
Proof.
  unfold os.exists_, os.stat. destruct (fs0 !! p).
  - split; [done|by intros [? ?]].
  - destruct (refuses p) as [kind|].
    + split; [intros [= <-]; eauto|by intros (_ & ? & [= <-] & ->)].
    + split; [done|by intros (_ & ? & ? & _)].
Qed.

Lemma exists_is_Exception (fs0 : FS) (p : Path) (e : exn) :
  os.exists_ refuses fs0 p = inl e → is_Exception e = true.
Proof. intros (_ & kind & _ & ->)%exists_raises. done. Qed.





Lemma is_dir_Some (fs0 : FS) (p : Path) :
  os.is_dir refuses fs0 p = inr true ↔ fs0 !! p = Some Dir.
Proof.
  unfold os.is_dir, os.stat. destruct (fs0 !! p) as [[|d]|]; try done.
  by destruct (refuses p).
Qed.

Lemma is_dir_exists (fs0 : FS) (p : Path) :
  os.is_dir refuses fs0 p = inr true → os.exists_ refuses fs0 p = inr true.
Proof. intros H%is_dir_Some. apply exists_Some. by rewrite H. Qed.

(** [is_dir()] returns [False] where [exists()] returns and the path is no
    directory. *)
Lemma is_dir_false (fs0 : FS) (p : Path) :
  os.is_dir refuses fs0 p = inr false
  ↔ ∃ there, os.exists_ refuses fs0 p = inr there ∧ fs0 !! p ≠ Some Dir.
Proof.
  unfold os.is_dir, os.exists_, os.stat.
  destruct (fs0 !! p) as [[|d]|]; [| |destruct (refuses p)].
  - split; [done|]. by intros (? & _ & ?).
  - split; [by exists true|done].
  - split; [done|by intros (? & ? & _)].
  - split; [by exists false|done].
Qed.

Lemma is_dir_raises (fs0 : FS) (p : Path) (e : exn) :
  os.is_dir refuses fs0 p = inl e ↔ os.exists_ refuses fs0 p = inl e.
Proof.
  unfold os.is_dir, os.exists_. destruct (os.stat refuses fs0 p) as [e'|[[|d]|]];
    by split.
Qed.

End Stat.

(** ** One turn of the conversion loop *)

Section Loop.
Context (PIL : Pillow) (refuses : Refusals).

Lemma save_as_webp_method (img : Image PIL) (o : Path) (q : Z) :
  save_as_webp PIL img o q = Image_save PIL img o q (method_for PIL img).
Proof. unfold save_as_webp, method_for. by case_bool_decide. Qed.

(** The [try] block does what [attempt] says of the nodes it finds. *)
Lemma try_block_run (f o : Path) (q : Z) (c : counters) (w : World) :
  let r := attempt PIL f o q (fs w !! f) (fs w !! o) (fs w !! pathlib.parent o) in
  try_block PIL f o q c w =
    match r with
    | Wrote _ =>
        (inr (incr_converted c),
         printed (mkWorld (fs_after (fs w) o r) (stdout w)) (converted_line f o))
    | Failed e _ => (inl e, mkWorld (fs_after (fs w) o r) (stdout w))
    end.
Proof.
  destruct w as [fs0 out]. simpl.
  unfold try_block, attempt, Image_open. rewrite !bind_run. simpl.
  destruct (fs0 !! f) as [[|bytes]|]; [done| |done].
  destruct (decode PIL bytes) as [msg|img]; [done|]. simpl.
  rewrite bind_run, save_as_webp_method. unfold Image_save.
  destruct (load PIL img) as [msg|]; [done|].
  rewrite bind_run. simpl.
  destruct (fs0 !! o) as [[|old]|], (fs0 !! pathlib.parent o) as [[|pd]|];
    try done;
    rewrite ?bind_run; simpl;
    by destruct (webp_encode PIL img q (method_for PIL img)).
Qed.

(** Nothing in the [try] block calls [sys.exit]. *)
Lemma attempt_is_Exception (f o : Path) (q : Z) (nf no np : option node) e t :
  attempt PIL f o q nf no np = Failed e t → is_Exception e = true.
Proof.
  unfold attempt. intros H.
  repeat match type of H with
         | context [match ?x with _ => _ end] => destruct x
         end; by inversion H.
Qed.

(** One turn of the loop, branch by branch. *)
Lemma loop_body_run (out : Path) (q : Z) (ow : bool) (c : counters) (f o : Path) w :
  output_file_of out f = inr o →
  loop_body PIL refuses out q ow c f w =
    if decide (f = o) then (inr (incr_skipped c), printed w (skipping_already f))
    else
      match os.exists_ refuses (fs w) o with
      | inl e => (inl e, w)
      | inr there =>
          if there && negb ow
          then (inr (incr_skipped c), printed w (skipping_exists f))
          else
            let r := attempt PIL f o q (fs w !! f) (fs w !! o) (fs w !! pathlib.parent o) in
            let w' := mkWorld (fs_after (fs w) o r) (stdout w) in
            match r with
            | Wrote _ => (inr (incr_converted c), printed w' (converted_line f o))
            | Failed e _ => (inr (incr_error c), printed w' (error_line f e))
            end
      end.
Proof.
  intros Ho. unfold loop_body. rewrite bind_run, Ho. unfold lift.
  case_decide; [done|].
  rewrite bind_run. simpl. rewrite bind_run.
  destruct (os.exists_ refuses (fs w) o) as [e|there]; [done|].
  destruct (there && negb ow); [done|].
  unfold try_except. rewrite try_block_run. simpl.
  destruct (attempt PIL f o q (fs w !! f) (fs w !! o) (fs w !! pathlib.parent o))
    as [data|e t] eqn:Ha; [done|].
  by rewrite (attempt_is_Exception _ _ _ _ _ _ _ _ Ha).
Qed.




End Loop.

(** ** The image files of a folder *)

Lemma endswith_app (s suffix : string) :
  Str.endswith s suffix = true ↔ ∃ pre, s = pre ++ suffix.
Proof.
  induction s as [|c s IH]; simpl.
  - case_decide as H.
    + split; [|done]. intros _. exists "". by rewrite <- H.
    + split; [done|]. intros [pre Hpre]. symmetry in Hpre.
      apply StrFacts.app_eq_nil in Hpre as [_ ->]. done.
  - case_decide as H.
    + split; [|done]. intros _. exists "". by rewrite <- H.
    + rewrite IH. split.
      * intros [pre ->]. by exists (String c pre).
      * intros [[|d pre] Hpre]; [by rewrite StrFacts.app_nil_l in Hpre|].
        rewrite StrFacts.app_cons in Hpre. injection Hpre as -> ->. by exists pre.
Qed.

Lemma endswith_nonempty (s suffix : string) :
  Str.endswith s suffix = true → suffix ≠ "" → s ≠ "".
Proof.
  intros H Hs ->. apply endswith_app in H as [pre H]. symmetry in H.
  by apply StrFacts.app_eq_nil in H as [_ ->].
Qed.

Lemma upper_nonempty (s : string) : s ≠ "" → Str.upper s ≠ "".
Proof. by destruct s. Qed.

Lemma formats_nonempty (set_order : list string) :
  set_order ≡ₚ SUPPORTED_FORMATS → Forall (λ ext, ext ≠ "") set_order.
Proof.
  intros Hp. rewrite Hp. unfold SUPPORTED_FORMATS.
  repeat (constructor; [done|]). constructor.
Qed.

(** Every image file found has a name, so the loop can name its output. *)
Lemma image_files_named (set_order : list string) (fs0 : FS) (inp out : Path) :
  set_order ≡ₚ SUPPORTED_FORMATS →
  Forall (named out) (image_files set_order fs0 inp).
Proof.
  intros Hp. apply Forall_forall. intros f Hf.
  apply elem_of_image_files in Hf as (n & ext & -> & _ & Hext & He).
  assert (ext ≠ "") as Hne.
  { pose proof (formats_nonempty _ Hp) as Hall.
    rewrite Forall_forall in Hall. by apply Hall. }
  eexists. apply output_file_of_joinpath.
  destruct He as [He|He]; eapply endswith_nonempty; eauto using upper_nonempty.
Qed.

(** ** [convert_to_webp], path by path *)

#[local] Arguments os.Path_mkdir : simpl never.
#[local] Arguments os.exists_ : simpl never.
#[local] Arguments os.is_dir : simpl never.
#[local] Arguments image_files : simpl never.
#[local] Arguments pathlib.Path_of_str : simpl never.
#[local] Arguments loop_body : simpl never.
#[local] Arguments str_mul : simpl never.

(** ** Making the output directory *)

Section Mkdir.
Context (refuses : Refusals).

Lemma mkdir_fresh (fs0 : FS) (p : Path) (n : string) :
  fs0 !! (p </> n) = None → refuses (p </> n) = None → fs0 !! p = Some Dir →
  os.Path_mkdir refuses true true fs0 (p </> n) = inr (<[p </> n := Dir]> fs0).
Proof.
  intros Hnone Hfree Hdir. unfold os.Path_mkdir.
  destruct (reverse (p </> n).2) as [|m rparts] eqn:Hrev.
  { apply (f_equal reverse) in Hrev. rewrite reverse_involutive in Hrev.
    unfold pathlib.joinpath in Hrev. simpl in Hrev.
    by destruct (p.2). }
  assert ((p.1, reverse (m :: rparts)) = p </> n) as Hp.
  { rewrite <- Hrev, reverse_involutive. by destruct p. }
  simpl. rewrite Hp. unfold os.mkdir.
  by rewrite Hnone, Hfree, parent_joinpath, Hdir.
Qed.

Lemma os_mkdir_inr (fs0 fs' : FS) (p : Path) :
  os.mkdir refuses fs0 p = inr fs' → fs0 !! p = None ∧ fs' = <[p := Dir]> fs0.
Proof.
  unfold os.mkdir. destruct (fs0 !! p); [done|].
  destruct (refuses p); [done|].
  destruct (fs0 !! pathlib.parent p) as [[|d]|]; try done.
  by intros [= <-].
Qed.

(** The [except OSError] clause lets [mkdir] return only on a directory
    that is there. *)
Lemma mkdir_except_inr (ok : bool) (fs0 fs' : FS) (p : Path) (e : exn) :
  os.mkdir_except refuses ok fs0 p e = inr fs' → fs' = fs0 ∧ fs0 !! p = Some Dir.
Proof.
  unfold os.mkdir_except. destruct ok; [|done].
  destruct (os.is_dir refuses fs0 p) as [e'|[]] eqn:Hd; try done.
  intros [= <-]. split; [done|]. by apply is_dir_Some in Hd.
Qed.

Lemma Path_mkdir_single_inr (ok : bool) (fs0 fs' : FS) (p : Path) :
  os.Path_mkdir_single refuses ok fs0 p = inr fs' → fs0 ⊆ fs' ∧ fs' !! p = Some Dir.
Proof.
  unfold os.Path_mkdir_single.
  destruct (os.mkdir refuses fs0 p) as [e|fs1] eqn:Hm.
  - destruct e as [| [] q | |]; try done;
      by intros [-> Hd]%mkdir_except_inr.
  - intros [= <-]. apply os_mkdir_inr in Hm as [Hnone ->].
    split; [by apply insert_subseteq | by rewrite lookup_insert_eq].
Qed.

Lemma Path_mkdir_parents_inr (ok : bool) (fs0 fs' : FS) (a : string) (rparts : list string) :
  os.Path_mkdir_parents refuses ok fs0 a rparts = inr fs' →
  fs0 ⊆ fs' ∧ fs' !! (a, reverse rparts) = Some Dir.
Proof.
  revert ok fs0 fs'. induction rparts as [|m rparts IH]; intros ok fs0 fs'.
  - simpl. destruct (os.mkdir refuses fs0 (a, reverse [])) as [e|fs1] eqn:Hm.
    + destruct e as [| [] q | |]; try done;
        by intros [-> Hd]%mkdir_except_inr.
    + intros [= <-]. apply os_mkdir_inr in Hm as [Hnone ->].
      split; [by apply insert_subseteq | by rewrite lookup_insert_eq].
  - simpl. destruct (os.mkdir refuses fs0 (a, reverse (m :: rparts))) as [e|fs1] eqn:Hm.
    + destruct e as [| [] q | |]; try done;
        try by intros [-> Hd]%mkdir_except_inr.
      destruct (os.Path_mkdir_parents refuses true fs0 a rparts) as [e|fs1] eqn:Hp; [done|].
      intros Hs. apply IH in Hp as [Hsub _].
      apply Path_mkdir_single_inr in Hs as [Hsub' Hd].
      split; [by etrans | done].
    + intros [= <-]. apply os_mkdir_inr in Hm as [Hnone ->].
      split; [by apply insert_subseteq | by rewrite lookup_insert_eq].
Qed.

(** When [mkdir(parents=True, exist_ok=True)] returns, the directory is
    there and nothing that was there before has changed. *)
Lemma Path_mkdir_inr (fs0 fs' : FS) (p : Path) :
  os.Path_mkdir refuses true true fs0 p = inr fs' → fs0 ⊆ fs' ∧ fs' !! p = Some Dir.
Proof.
  unfold os.Path_mkdir. intros H. apply Path_mkdir_parents_inr in H.
  rewrite reverse_involutive in H. by destruct p.
Qed.

(** On a directory that is there, it changes nothing. *)
Lemma Path_mkdir_existing (fs0 : FS) (p : Path) :
  fs0 !! p = Some Dir → os.Path_mkdir refuses true true fs0 p = inr fs0.
Proof.
  intros Hd. unfold os.Path_mkdir.
  assert ((p.1, reverse (reverse p.2)) = p) as Hp
    by (rewrite reverse_involutive; by destruct p).
  assert (os.mkdir refuses fs0 p = inl (OSError FileExistsError p)) as Hm
    by (unfold os.mkdir; by rewrite Hd).
  apply (is_dir_Some refuses) in Hd.
  destruct (reverse p.2) as [|m rparts]; simpl; rewrite Hp, Hm;
    unfold os.mkdir_except; by rewrite Hd.
Qed.

Lemma is_dir_weaken (fs0 fs' : FS) (p : Path) :
  fs0 ⊆ fs' → os.is_dir refuses fs0 p = inr true → os.is_dir refuses fs' p = inr true.
Proof.
  intros Hsub Hd. apply is_dir_Some. apply is_dir_Some in Hd.
  by eapply lookup_weaken.
Qed.

End Mkdir.

Section Convert.
Context (PIL : Pillow) (refuses : Refusals) (cwd : Path) (set_order : list string).

(** Line 28 is outside any [try]: what [exists()] raises ends the call. *)
Lemma convert_unexaminable (inp outp : string) (q : Z) (ow : bool) w e :
  os.exists_ refuses (fs w) (pathlib.Path_of_str inp) = inl e →
  convert_to_webp PIL refuses cwd set_order inp outp q ow w = (inl e, w).
Proof.
  intros H. unfold convert_to_webp.
  rewrite (bind_returns get_fs _ w (fs w) w eq_refl).
  rewrite bind_run. unfold lift. by rewrite H.
Qed.

Lemma convert_missing (inp outp : string) (q : Z) (ow : bool) w :
  os.exists_ refuses (fs w) (pathlib.Path_of_str inp) = inr false →
  convert_to_webp PIL refuses cwd set_order inp outp q ow w
    = (inr tt, printed w (missing_line inp)).
Proof.
  intros H. unfold convert_to_webp.
  rewrite (bind_returns get_fs _ w (fs w) w eq_refl).
  rewrite bind_run. unfold lift. by rewrite H.
Qed.

Lemma convert_not_a_directory (inp outp : string) (q : Z) (ow : bool) w :
  os.exists_ refuses (fs w) (pathlib.Path_of_str inp) = inr true →
  os.is_dir refuses (fs w) (pathlib.Path_of_str inp) = inr false →
  convert_to_webp PIL refuses cwd set_order inp outp q ow w
    = (inr tt, printed w (not_a_directory_line inp)).
Proof.
  intros H1 H2. unfold convert_to_webp.
  rewrite (bind_returns get_fs _ w (fs w) w eq_refl).
  rewrite (bind_returns (lift _) _ w true w) by (unfold lift; by rewrite H1).
  simpl. rewrite bind_run. unfold lift. by rewrite H2.
Qed.

Lemma convert_mkdir_raises (inp outp : string) (q : Z) (ow : bool) w e :
  os.is_dir refuses (fs w) (pathlib.Path_of_str inp) = inr true →
  os.Path_mkdir refuses true true (fs w) (pathlib.Path_of_str outp) = inl e →
  convert_to_webp PIL refuses cwd set_order inp outp q ow w = (inl e, w).
Proof.
  intros H1 H2. unfold convert_to_webp.
  rewrite (bind_returns get_fs _ w (fs w) w eq_refl).
  rewrite (bind_returns (lift _) _ w true w)
    by (unfold lift; by rewrite (is_dir_exists _ _ _ H1)).
  simpl.
  rewrite (bind_returns (lift _) _ w true w) by (unfold lift; by rewrite H1).
  simpl. rewrite bind_run. unfold lift. by rewrite H2.
Qed.

(** After the checks and [mkdir]: the branch on [image_files]. *)
Lemma convert_run (inp outp : string) (q : Z) (ow : bool) w fs1 :
  os.is_dir refuses (fs w) (pathlib.Path_of_str inp) = inr true →
  os.Path_mkdir refuses true true (fs w) (pathlib.Path_of_str outp) = inr fs1 →
  let out := pathlib.Path_of_str outp in
  let files := image_files set_order fs1 (pathlib.Path_of_str inp) in
  let w1 := printed (mkWorld fs1 (stdout w))
              ("Output folder: " ++ pathlib.str (pathlib.absolute cwd out)) in
  convert_to_webp PIL refuses cwd set_order inp outp q ow w =
    match files with
    | [] => (inr tt, printed w1 (no_images_line inp))
    | _ =>
        (print ("Found " ++ pretty (length files) ++ " image(s) to convert");;
         print ("Output quality: " ++ pretty q);;
         print (str_mul "-" 50);;
         c ← for_ files (loop_body PIL refuses out q ow) (mkCounters 0 0 0);
         print_summary c) w1
    end.
Proof.
  intros H1 H2. unfold convert_to_webp.
  rewrite (bind_returns get_fs _ w (fs w) w eq_refl).
  rewrite (bind_returns (lift _) _ w true w)
    by (unfold lift; by rewrite (is_dir_exists _ _ _ H1)).
  simpl.
  rewrite (bind_returns (lift _) _ w true w) by (unfold lift; by rewrite H1).
  simpl.
  rewrite (bind_returns (lift _) _ w fs1 w) by (unfold lift; by rewrite H2).
  rewrite !bind_run. simpl.
  by destruct (image_files set_order fs1 (pathlib.Path_of_str inp)).
Qed.

(** A run that has image files, in terms of its loop: what the loop raises
    ends the call, and the summary follows the loop that returns. *)
Lemma convert_loop (inp outp : string) (q : Z) (ow : bool) w fs1 :
  os.is_dir refuses (fs w) (pathlib.Path_of_str inp) = inr true →
  os.Path_mkdir refuses true true (fs w) (pathlib.Path_of_str outp) = inr fs1 →
  let out := pathlib.Path_of_str outp in
  let files := image_files set_order fs1 (pathlib.Path_of_str inp) in
  files ≠ [] →
  convert_to_webp PIL refuses cwd set_order inp outp q ow w =
    match for_ files (loop_body PIL refuses out q ow) (mkCounters 0 0 0)
            (mkWorld fs1 (stdout w ++ header_lines cwd out (length files) q)) with
    | (inr c, w') => (inr tt, mkWorld (fs w') (stdout w' ++ summary_lines c))
    | (inl e, w') => (inl e, w')
    end.
Proof.
  intros H1 H2 out files Hne.
  rewrite (convert_run inp outp q ow w fs1 H1 H2). fold out files.
  destruct files as [|f files'] eqn:Hfiles; [done|].
  rewrite <- Hfiles in *.
  repeat (rewrite bind_run, print_run). rewrite bind_run.
  match goal with
  | |- context [for_ _ _ _ ?W] =>
      replace W with (mkWorld fs1 (stdout w ++ header_lines cwd out (length files) q))
  end.
  2:{ unfold printed, header_lines. simpl. by rewrite <- !List.app_assoc. }
  destruct (for_ files (loop_body PIL refuses out q ow) (mkCounters 0 0 0)
              (mkWorld fs1 (stdout w ++ header_lines cwd out (length files) q)))
    as [[e|c] w']; [done|].
  unfold print_summary.
  repeat (rewrite bind_run, print_run). rewrite print_run.
  unfold printed, summary_lines. simpl. do 2 f_equal.
  by rewrite <- !List.app_assoc.
Qed.


End Convert.

(** ** The input folder and the summary *)

Section Run.
Context (PIL : Pillow) (refuses : Refusals) (cwd : Path) (set_order : list string).




End Run.




(** ** Which files are found *)

(** C3, at the failing input.  [scans/photo.Jpg] has the extension [.jpg]
    up to case, yet no image file is found in [scans/]: neither ['*.jpg'] nor
    ['*.JPG'] matches its name, and the run reports an empty folder. *)
Lemma mixed_case_extension_is_not_found :
  is_Some (Example.scans !! (pathlib.Path_of_str "scans" </> "photo.Jpg"))
  ∧ Str.lower (pathlib.suffix_of_name "photo.Jpg") ∈ SUPPORTED_FORMATS
  ∧ image_files SUPPORTED_FORMATS Example.scans (pathlib.Path_of_str "scans") = []
  ∧ stdout (run_script Example.PIL Example.refuses Example.cwd SUPPORTED_FORMATS
              [Example.script; "scans"; "out"] Example.scans).2
    = ["Output folder: /home/user/out"; "No image files found in 'scans'"].
Proof.
  split; [vm_compute; by eexists|]. split; [|split; by vm_compute].
  vm_compute. constructor.
Qed.

(** ** Skips and failures *)

Section Outcomes.
Context (PIL : Pillow) (refuses : Refusals).





(** So does an encoder failure, which leaves a fresh output file absent. *)
Lemma encoder_failure_raises (f o : Path) (q : Z) (c : counters) w bytes img msg :
  fs w !! f = Some (File bytes) → decode PIL bytes = inr img →
  load PIL img = None →
  fs w !! o = None → fs w !! pathlib.parent o = Some Dir →
  webp_encode PIL img q (method_for PIL img) = inl msg →
  try_block PIL f o q c w = (inl (PILError msg), w).
Proof.
  intros Hf Hd Hl Ho Hp He. rewrite try_block_run. unfold attempt.
  rewrite Hf, Hd, Hl, Ho, Hp, He. by destruct w.
Qed.

(** C9, amended.  An image whose mode is RGBA, LA or P is saved at the
    requested quality with [method=6]; an image of any other mode (PA, La and
    RGBa among them) is saved at the same quality with no [method].  A
    conversion that succeeds leaves in the output file what the encoder
    returns for the decoded image at that quality and that method. *)
Theorem method_6_for_RGBA_LA_P (f o : Path) (q : Z) (c c' : counters) (w w' : World) :
  try_block PIL f o q c w = (inr c', w') →
  (∀ img : Image PIL,
     (mode PIL img ∈ ["RGBA"; "LA"; "P"] →
      save_as_webp PIL img o q = Image_save PIL img o q (Some 6))
     ∧ (mode PIL img ∉ ["RGBA"; "LA"; "P"] →
        save_as_webp PIL img o q = Image_save PIL img o q None))
  ∧ ∃ bytes img data,
      fs w !! f = Some (File bytes)
      ∧ decode PIL bytes = inr img
      ∧ webp_encode PIL img q
          (if bool_decide (mode PIL img ∈ ["RGBA"; "LA"; "P"]) then Some 6 else None)
        = inr data
      ∧ fs w' = <[o := File data]> (fs w).
Proof.
  intros Htry. split.
  - intros img. unfold save_as_webp.
    split; intros Hm; [by rewrite bool_decide_eq_true_2
                      | by rewrite bool_decide_eq_false_2].
  - rewrite try_block_run in Htry. simpl in Htry. unfold attempt in Htry.
    destruct (fs w !! f) as [[|bytes]|]; [done| |done].
    destruct (decode PIL bytes) as [msg|img] eqn:Hd; [done|].
    destruct (load PIL img) as [msg|]; [done|].
    exists bytes, img. fold (method_for PIL img).
    destruct (fs w !! o) as [[|old]|], (fs w !! pathlib.parent o) as [[|pd]|];
      try done;
      (destruct (webp_encode PIL img q (method_for PIL img)) as [msg|data];
       [done|]; exists data; repeat split; by injection Htry as _ <-).
Qed.

End Outcomes.

(** C9, counterexample.  A palette image with alpha (mode PA, which Pillow's
    TIFF reader produces) is saved with no [method]: the bytes written record
    the encoder's default, 4, where [method=6] would have recorded 6. *)
Lemma palette_with_alpha_gets_default_method :
  ¬ transparent_modes_get_method_6 Example.PIL.
Proof.
  intros H.
  specialize (H (Byte.x05, [Byte.x10]) ("", ["out"; "d.webp"]) 85 eq_refl).
  apply (f_equal (λ m : M unit,
           fs (m (mkWorld (<[("", ["out"]) := Dir]> Example.tiffs) [])).2
           !! ("", ["out"; "d.webp"]))) in H.
  vm_compute in H. discriminate.
Qed.

(** ** Renaming to [.webp] *)

Lemma rsplit_dot_app (before after : string) :
  Str.rsplit_dot after = None →
  Str.rsplit_dot (before ++ String "."%char after) = Some (before, after).
Proof.
  intros Ha. induction before as [|c before IH].
  - rewrite StrFacts.app_nil_l. simpl. by rewrite Ha.
  - rewrite StrFacts.app_cons. simpl. by rewrite IH.
Qed.

(** The new name is a non-empty stem followed by the suffix. *)
Lemma with_suffix_name_stem (n suffix : string) :
  n ≠ "" → ∃ stem, stem ≠ "" ∧ pathlib.with_suffix_name n suffix = stem ++ suffix.
Proof.
  intros Hn. unfold pathlib.with_suffix_name.
  destruct (Str.rsplit_dot n) as [[before after]|]; [|by exists n].
  destruct (Str.nonempty before) eqn:Hb; simpl; [|by exists n].
  destruct (Str.nonempty after); [|by exists n].
  exists before. split; [by apply nonempty_true | done].
Qed.

(** Renaming a renamed file changes nothing. *)
Lemma with_suffix_name_webp_idem (n : string) :
  n ≠ "" →
  pathlib.with_suffix_name (pathlib.with_suffix_name n ".webp") ".webp"
  = pathlib.with_suffix_name n ".webp".
Proof.
  intros Hn. destruct (with_suffix_name_stem n ".webp" Hn) as (stem & Hs & ->).
  unfold pathlib.with_suffix_name at 1.
  rewrite (rsplit_dot_app stem "webp") by done.
  apply nonempty_true in Hs. by rewrite Hs.
Qed.

Lemma with_suffix_name_nonempty (n suffix : string) :
  n ≠ "" → pathlib.with_suffix_name n suffix ≠ "".
Proof.
  intros Hn. destruct (with_suffix_name_stem n suffix Hn) as (stem & Hs & ->).
  intros H. by apply StrFacts.app_eq_nil in H as [? _].
Qed.

(** ** Runs without [overwrite] *)

Section NoOverwrite.
Context (PIL : Pillow) (refuses : Refusals).

(** An attempt on an output file that is not there truncates nothing. *)
Lemma attempt_fresh (f o : Path) (q : Z) (nf np : option node) e t :
  attempt PIL f o q nf None np = Failed e t → t = false.
Proof.
  unfold attempt. intros H.
  repeat match type of H with
         | context [match ?x with _ => _ end] => destruct x
         end; by inversion H.
Qed.

(** The output file of an image file lies in the output directory. *)
Lemma output_file_parent (out f o : Path) :
  output_file_of out f = inr o → pathlib.parent o = out.
Proof.
  unfold output_file_of. destruct (pathlib.with_suffix f ".webp"); [done|].
  intros [= <-]. apply parent_joinpath.
Qed.

(** What one turn without [overwrite] does to the file system: nothing, or
    it creates the output file. *)
Lemma loop_body_no_overwrite (out : Path) (q : Z) (c c' : counters) (f o : Path) w w' :
  output_file_of out f = inr o →
  loop_body PIL refuses out q false c f w = (inr c', w') →
  fs w' = fs w
  ∨ (f ≠ o ∧ fs w !! o = None ∧ ∃ data, fs w' = <[o := File data]> (fs w)).
Proof.
  intros Ho. rewrite (loop_body_run PIL refuses out q false c f o w Ho).
  case_decide as Hfo; [intros [= _ <-]; by left|].
  destruct (os.exists_ refuses (fs w) o) as [e|[]] eqn:Hex;
    [done|simpl; intros [= _ <-]; by left|].
  apply exists_None in Hex as [Hex _]. simpl. rewrite Hex.
  destruct (attempt PIL f o q (fs w !! f) None (fs w !! pathlib.parent o))
    as [data|e t] eqn:Ha.
  - intros [= _ <-]. right. simpl. eauto.
  - apply attempt_fresh in Ha as ->. intros [= _ <-]. by left.
Qed.

Lemma loop_body_no_overwrite_subseteq (out : Path) (q : Z) (c c' : counters) (f o : Path) w w' :
  output_file_of out f = inr o →
  loop_body PIL refuses out q false c f w = (inr c', w') →
  fs w ⊆ fs w'.
Proof.
  intros Ho Hb.
  destruct (loop_body_no_overwrite out q c c' f o w w' Ho Hb)
    as [->|(_ & Hnone & data & ->)]; [done|].
  by apply insert_subseteq.
Qed.

(** A settled image file is passed over with one line. *)
Lemma settled_step (out : Path) (q : Z) (c : counters) (f : Path) w :
  settled PIL refuses out q (fs w) f →
  ∃ c' line, loop_body PIL refuses out q false c f w = (inr c', printed w line).
Proof.
  intros (o & Ho & H). rewrite (loop_body_run PIL refuses out q false c f o w Ho).
  case_decide as Hfo; [by eexists _, _|].
  destruct H as [?|[Hsome|[Hfree [e Ha]]]]; [done| |].
  { apply (exists_Some refuses) in Hsome. rewrite Hsome. simpl. by eexists _, _. }
  destruct (fs w !! o) as [y|] eqn:Hex.
  { assert (os.exists_ refuses (fs w) o = inr true) as ->
      by (apply exists_Some; by rewrite Hex).
    simpl. by eexists _, _. }
  assert (os.exists_ refuses (fs w) o = inr false) as -> by (by apply exists_None).
  simpl. rewrite Ha. simpl. destruct w. by eexists _, _.
Qed.

(** A run over settled image files writes nothing. *)
Lemma settled_loop (out : Path) (q : Z) (files : list Path) (c : counters) w :
  Forall (settled PIL refuses out q (fs w)) files →
  ∃ c' w', for_ files (loop_body PIL refuses out q false) c w = (inr c', w')
           ∧ fs w' = fs w.
Proof.
  revert c w. induction files as [|f files IH]; intros c w Hall.
  { by exists c, w. }
  apply Forall_cons in Hall as [Hf Hall].
  destruct (settled_step out q c f w Hf) as (c1 & line & Hb).
  destruct (IH c1 (printed w line) Hall) as (c2 & w2 & Hl & Hfs).
  exists c2, w2. by rewrite for_cons, bind_run, Hb.
Qed.

(** What a run without [overwrite] leaves behind: everything that was there,
    new files only where an image file has its output file, and every image
    file settled. *)
Lemma loop_no_overwrite (out : Path) (q : Z) (files : list Path) (c c' : counters) w w' :
  Forall (named out) files →
  Forall (λ f, is_Some (fs w !! f)) files →
  fs w !! out = Some Dir →
  for_ files (loop_body PIL refuses out q false) c w = (inr c', w') →
  fs w ⊆ fs w'
  ∧ (∀ k, fs w !! k = None → is_Some (fs w' !! k) →
          ∃ g, g ∈ files ∧ output_file_of out g = inr k)
  ∧ Forall (settled PIL refuses out q (fs w')) files.
Proof.
  intros Hnamed. revert c w.
  induction Hnamed as [|f files [o Ho] _ IH]; intros c w Hex Hout.
  { intros [= _ <-]. split; [done|]. split; [|done].
    intros k Hnone [x Hx]. by rewrite Hnone in Hx. }
  apply Forall_cons in Hex as [Hf Hex].
  rewrite for_cons, bind_run.
  destruct (loop_body PIL refuses out q false c f w) as [[e|c1] w1] eqn:Hb; [done|].
  intros Hloop.
  pose proof (loop_body_no_overwrite_subseteq out q c c1 f o w w1 Ho Hb) as Hsub1.
  destruct (IH c1 w1) as (Hsub2 & Hnew & Hsettled); [| |exact Hloop|].
  { eapply Forall_impl; [exact Hex|]. intros g [x Hx]. exists x.
    by eapply lookup_weaken. }
  { by eapply lookup_weaken. }
  split; [by etrans|]. split.
  - intros k Hnone Hsome.
    destruct (fs w1 !! k) as [x|] eqn:Hk1.
    + exists f. split; [by left|].
      destruct (loop_body_no_overwrite out q c c1 f o w w1 Ho Hb)
        as [Heq|(_ & _ & data & Heq)]; rewrite Heq in Hk1.
      * by rewrite Hnone in Hk1.
      * destruct (decide (o = k)) as [->|Hne]; [done|].
        rewrite lookup_insert_ne in Hk1 by done. by rewrite Hnone in Hk1.
    + destruct (Hnew k Hk1 Hsome) as (g & Hg & Hgo).
      exists g. split; [by right | done].
  - constructor; [|exact Hsettled].
    exists o. split; [exact Ho|].
    destruct (decide (f = o)) as [Hfo|Hfo]; [by left|]. right.
    destruct (fs w' !! o) as [y|] eqn:Ho'; [left; by eexists|]. right.
    assert (fs w1 !! o = None) as Ho1.
    { destruct (fs w1 !! o) as [y|] eqn:E; [|done].
      by rewrite (lookup_weaken _ _ _ _ E Hsub2) in Ho'. }
    assert (fs w !! o = None) as Ho0.
    { destruct (fs w !! o) as [y|] eqn:E; [|done].
      by rewrite (lookup_weaken _ _ _ _ E Hsub1) in Ho1. }
    pose proof Hb as Hb'.
    rewrite (loop_body_run PIL refuses out q false c f o w Ho) in Hb'.
    rewrite decide_False in Hb' by done.
    destruct (os.exists_ refuses (fs w) o) as [e|[]] eqn:Hex0; [done| |].
    { apply exists_Some in Hex0. rewrite Ho0 in Hex0. by destruct Hex0. }
    apply exists_None in Hex0 as [_ Hfree]. simpl in Hb'.
    rewrite Ho0 in Hb'. split; [exact Hfree|].
    destruct (attempt PIL f o q (fs w !! f) None (fs w !! pathlib.parent o))
      as [data|e t] eqn:Ha.
    { injection Hb' as _ <-. simpl in Ho1. by rewrite lookup_insert_eq in Ho1. }
    apply attempt_fresh in Ha as Ht. subst t. exists e.
    destruct Hf as [x Hx].
    rewrite (output_file_parent out f o Ho) in *.
    assert (fs w ⊆ fs w') as Hsub by (by etrans).
    rewrite (lookup_weaken _ _ _ _ Hx Hsub), (lookup_weaken _ _ _ _ Hout Hsub).
    by rewrite Hx, Hout in Ha.
Qed.

End NoOverwrite.

(** ** Running the converter again *)

(** The image files do not depend on the order of the formats, as a set. *)
Lemma elem_of_image_files_order (order1 order2 : list string) (fs0 : FS) (p f : Path) :
  order1 ≡ₚ order2 →
  f ∈ image_files order1 fs0 p → f ∈ image_files order2 fs0 p.
Proof.
  intros Hp Hf. apply elem_of_image_files in Hf as (n & ext & -> & Hx & Hext & He).
  apply elem_of_image_files. exists n, ext. by rewrite <- Hp.
Qed.

(** A file that a run wrote and that the next run finds among its image
    files is its own output file there. *)
Lemma written_file_is_its_own_output (inp out g k : Path) (m n : string) :
  g = inp </> m → m ≠ "" → output_file_of out g = inr k → k = inp </> n →
  output_file_of out k = inr k.
Proof.
  intros -> Hm Hg ->. rewrite output_file_of_joinpath in Hg by done.
  assert (out </> pathlib.with_suffix_name m ".webp" = inp </> n) as Hk
    by congruence.
  apply joinpath_inj in Hk as [-> <-].
  rewrite output_file_of_joinpath by (by apply with_suffix_name_nonempty).
  by rewrite with_suffix_name_webp_idem.
Qed.

Section Rerun.
Context (PIL : Pillow) (refuses : Refusals) (cwd : Path).

(** A run on a folder that is not there, or is no folder, writes nothing. *)
Lemma convert_bad_input (set_order : list string) (inp outp : string) (q : Z) (ow : bool) w :
  os.is_dir refuses (fs w) (pathlib.Path_of_str inp) = inr false →
  ∃ w', convert_to_webp PIL refuses cwd set_order inp outp q ow w = (inr tt, w')
        ∧ fs w' = fs w.
Proof.
  intros Hd. pose proof Hd as ([] & Hex & _)%is_dir_false.
  - rewrite convert_not_a_directory by done. by eexists.
  - rewrite convert_missing by done. by eexists.
Qed.

(** A run without [overwrite] over settled image files writes nothing
    beyond making the output directory. *)
Lemma convert_settled (set_order : list string) (inp outp : string) (q : Z) w fs1 :
  set_order ≡ₚ SUPPORTED_FORMATS →
  os.is_dir refuses (fs w) (pathlib.Path_of_str inp) = inr true →
  os.Path_mkdir refuses true true (fs w) (pathlib.Path_of_str outp) = inr fs1 →
  Forall (settled PIL refuses (pathlib.Path_of_str outp) q fs1)
         (image_files set_order fs1 (pathlib.Path_of_str inp)) →
  ∃ w', convert_to_webp PIL refuses cwd set_order inp outp q false w = (inr tt, w')
        ∧ fs w' = fs1.
Proof.
  intros Hp Hd Hm Hall.
  destruct (decide (image_files set_order fs1 (pathlib.Path_of_str inp) = []))
    as [Hnil|Hne].
  { rewrite (convert_run PIL refuses cwd set_order inp outp q false w fs1 Hd Hm), Hnil.
    by eexists. }
  rewrite (convert_loop PIL refuses cwd set_order inp outp q false w fs1 Hd Hm Hne).
  match goal with
  | |- context [for_ _ _ _ ?W] =>
      destruct (settled_loop PIL refuses (pathlib.Path_of_str outp) q _
                  (mkCounters 0 0 0) W Hall) as (c' & w' & -> & Hfs)
  end.
  by eexists.
Qed.

(** What a first run without [overwrite] that returns leaves behind. *)
Lemma convert_first_run (set_order : list string) (inp outp : string) (q : Z) w0 w1 :
  set_order ≡ₚ SUPPORTED_FORMATS →
  convert_to_webp PIL refuses cwd set_order inp outp q false w0 = (inr tt, w1) →
  let ip := pathlib.Path_of_str inp in
  let op := pathlib.Path_of_str outp in
  (os.is_dir refuses (fs w0) ip = inr false ∧ fs w1 = fs w0)
  ∨ (os.is_dir refuses (fs w1) ip = inr true
     ∧ fs w1 !! op = Some Dir
     ∧ ∃ fs1, fs1 ⊆ fs w1
        ∧ (∀ k, fs1 !! k = None → is_Some (fs w1 !! k) →
                ∃ g, g ∈ image_files set_order fs1 ip ∧ output_file_of op g = inr k)
        ∧ Forall (settled PIL refuses op q (fs w1)) (image_files set_order fs1 ip)).
Proof.
  intros Hp Hrun ip op.
  destruct (os.is_dir refuses (fs w0) ip) as [e|[]] eqn:Hd.
  { apply is_dir_raises in Hd.
    by rewrite (convert_unexaminable PIL refuses cwd set_order inp outp q false w0 e Hd)
      in Hrun. }
  2:{ left. split; [done|].
      destruct (convert_bad_input set_order inp outp q false w0 Hd) as (w' & Hc & Hfs).
      fold ip in Hd. rewrite Hrun in Hc. by injection Hc as <-. }
  right.
  destruct (os.Path_mkdir refuses true true (fs w0) op) as [e|fs1] eqn:Hm.
  { by rewrite (convert_mkdir_raises PIL refuses cwd set_order inp outp q false w0 e Hd Hm)
      in Hrun. }
  destruct (Path_mkdir_inr _ _ _ _ Hm) as [Hsub0 Hop].
  pose proof (is_dir_weaken _ _ _ _ Hsub0 Hd) as Hd1.
  destruct (decide (image_files set_order fs1 ip = [])) as [Hnil|Hne].
  { rewrite (convert_run PIL refuses cwd set_order inp outp q false w0 fs1 Hd Hm) in Hrun.
    fold ip in Hrun. rewrite Hnil in Hrun. injection Hrun as <-. simpl.
    split; [done|]. split; [done|]. exists fs1. split; [done|]. split; [|rewrite Hnil; by constructor].
    intros k Hnone [x Hx]. by rewrite Hnone in Hx. }
  rewrite (convert_loop PIL refuses cwd set_order inp outp q false w0 fs1 Hd Hm Hne)
    in Hrun.
  fold ip op in Hrun.
  match type of Hrun with
  | context [for_ _ _ _ ?W] =>
      destruct (for_ (image_files set_order fs1 ip) (loop_body PIL refuses op q false)
                  (mkCounters 0 0 0) W) as [[e|c] wl] eqn:Hl; [done|]
  end.
  injection Hrun as <-. simpl.
  apply loop_no_overwrite in Hl as (Hsub & Hnew & Hsettled); simpl in *.
  - split; [by eapply is_dir_weaken|]. split; [by eapply lookup_weaken|].
    by exists fs1.
  - by apply image_files_named.
  - apply Forall_forall. intros g Hg.
    by apply elem_of_image_files in Hg as (? & ? & _ & ? & _).
  - done.
Qed.

End Rerun.

(** C8, amended.  Without [overwrite], an image file whose output file is
    another file than itself and is there already is skipped as "output
    already exists": one more skipped, nothing written.  (An image file that
    is its own output file is skipped as "already .webp" instead.)  And when
    a run without [overwrite] has returned, a second run on the same
    arguments returns with the file system exactly as the first run left it,
    whatever the two iteration orders of the formats: it writes no file. *)
Theorem second_run_writes_nothing (PIL : Pillow) (refuses : Refusals) (cwd : Path)
    (order1 order2 : list string) (inp outp : string) (q : Z) (w0 w1 : World) :
  order1 ≡ₚ SUPPORTED_FORMATS → order2 ≡ₚ SUPPORTED_FORMATS →
  convert_to_webp PIL refuses cwd order1 inp outp q false w0 = (inr tt, w1) →
  (∃ w2, convert_to_webp PIL refuses cwd order2 inp outp q false w1 = (inr tt, w2)
         ∧ fs w2 = fs w1)
  ∧ (∀ c f o w,
       output_file_of (pathlib.Path_of_str outp) f = inr o →
       f ≠ o → os.exists_ refuses (fs w) o = inr true →
       loop_body PIL refuses (pathlib.Path_of_str outp) q false c f w
         = (inr (incr_skipped c), printed w (skipping_exists f))).
Proof.
  intros Hp1 Hp2 Hrun. split.
  2:{ intros c f o w Ho Hne Hex.
      rewrite (loop_body_run PIL refuses _ q false c f o w Ho).
      rewrite decide_False by done. by rewrite Hex. }
  destruct (convert_first_run PIL refuses cwd order1 inp outp q w0 w1 Hp1 Hrun)
    as [[Hd Hfs]|(Hd & Hop & fs1 & Hsub & Hnew & Hsettled)].
  { rewrite <- Hfs in Hd.
    exact (convert_bad_input PIL refuses cwd order2 inp outp q false w1 Hd). }
  apply (convert_settled PIL refuses cwd order2 inp outp q w1 (fs w1) Hp2 Hd
           (Path_mkdir_existing _ _ _ Hop)).
  apply Forall_forall. intros f Hf.
  pose proof Hf as Hf'.
  apply elem_of_image_files in Hf' as (n & ext & Hfn & Hx & Hext & He).
  assert (order2 ≡ₚ order1) as Hp21 by (by rewrite Hp1).
  destruct (fs1 !! f) as [x|] eqn:Hf1.
  - assert (f ∈ image_files order1 fs1 (pathlib.Path_of_str inp)) as Hin.
    { apply elem_of_image_files. exists n, ext. rewrite <- Hp21.
      split; [done|]. split; [by rewrite Hf1|]. by split. }
    rewrite Forall_forall in Hsettled. by apply Hsettled.
  - destruct (Hnew f Hf1 Hx) as (g & Hg & Hgo).
    apply elem_of_image_files in Hg as (m & ext' & Hgm & _ & Hext' & He').
    assert (m ≠ "") as Hm.
    { pose proof (formats_nonempty _ Hp1) as Hall.
      rewrite Forall_forall in Hall. specialize (Hall ext' Hext').
      destruct He' as [He'|He']; eapply endswith_nonempty;
        eauto using upper_nonempty. }
    exists f. split; [|by left].
    by eapply written_file_is_its_own_output.
Qed.

(** C8, counterexample.  In [webps/], converted into itself, the output
    file of [c.webp] is there (it is [c.webp]), and the file is skipped as
    "already .webp", not as "output already exists". *)
Lemma own_output_is_not_skipped_as_existing :
  ¬ existing_output_is_skipped_as_existing Example.PIL Example.refuses
      ("", ["webps"]) ("", ["webps"; "c.webp"]) 85 (mkCounters 0 0 0)
      (mkWorld Example.webps []).
Proof.
  intros H.
  specialize (H ("", ["webps"; "c.webp"])).
  assert (output_file_of ("", ["webps"]) ("", ["webps"; "c.webp"])
          = inr ("", ["webps"; "c.webp"])) as Ho by (by vm_compute).
  specialize (H Ho). rewrite (loop_body_run Example.PIL Example.refuses _ _ _ _ _ _ _ Ho) in H.
  rewrite decide_True in H by done.
  assert (os.exists_ Example.refuses (fs (mkWorld Example.webps []))
            ("", ["webps"; "c.webp"]) = inr true)
    as Hex by (by vm_compute).
  specialize (H Hex). injection H as H. discriminate H.
Qed.

(** ** The theorems at concrete inputs *)

(** [photos/] once the output directory [out/] has been made. *)
Lemma mkdir_out_in_photos :
  os.Path_mkdir Example.refuses true true Example.photos (pathlib.Path_of_str "out")
    = inr (<[("", ["out"]) := Dir]> Example.photos).
Proof.
  replace (pathlib.Path_of_str "out") with (("", []) </> "out" : Path)
    by (by vm_compute).
  replace (("", ["out"]) : Path) with (("", []) </> "out" : Path)
    by (by vm_compute).
  apply mkdir_fresh; by vm_compute.
Qed.

(** C5 at the qualities ["0"] and ["101"]. *)
Lemma quality_0_and_101_are_fatal :
  let run a :=
    run_script Example.PIL Example.refuses Example.cwd SUPPORTED_FORMATS
      [Example.script; "photos"; "out"; a] Example.photos in
  ("0" ∈ drop 3 [Example.script; "photos"; "out"; "0"]
   ∧ int "0" = inr 0 ∧ (0 < 1 ∨ 100 < 0))
  ∧ ("101" ∈ drop 3 [Example.script; "photos"; "out"; "101"]
     ∧ int "101" = inr 101 ∧ (101 < 1 ∨ 100 < 101))
  ∧ ((run "0").1 = 1 ∧ (run "0").1 ≠ 0 ∧ fs (run "0").2 = Example.photos
     ∧ (stdout (run "0").2 = [] ∨ stdout (run "0").2 = [quality_error]))
  ∧ ((run "101").1 = 1 ∧ (run "101").1 ≠ 0 ∧ fs (run "101").2 = Example.photos
     ∧ (stdout (run "101").2 = [] ∨ stdout (run "101").2 = [quality_error])).
Proof.
  intros run.
  assert ("0" ∈ drop 3 [Example.script; "photos"; "out"; "0"]) as H0
    by (simpl; constructor).
  assert ("101" ∈ drop 3 [Example.script; "photos"; "out"; "101"]) as H101
    by (simpl; constructor).
  assert (int "0" = inr 0) as Hi0 by (by vm_compute).
  assert (int "101" = inr 101) as Hi101 by (by vm_compute).
  split; [split; [exact H0 | split; [exact Hi0 | lia]]|].
  split; [split; [exact H101 | split; [exact Hi101 | lia]]|].
  split.
  - apply (quality_out_of_range_is_fatal Example.PIL Example.refuses Example.cwd SUPPORTED_FORMATS
             _ "0" 0 Example.photos H0 Hi0). lia.
  - apply (quality_out_of_range_is_fatal Example.PIL Example.refuses Example.cwd SUPPORTED_FORMATS
             _ "101" 101 Example.photos H101 Hi101). lia.
Defined.

(** C10 at the argument ["-5"]. *)
Lemma minus_5_is_ignored :
  ("-5" ≠ "--overwrite" ∧ Str.isdigit "-5" = false)
  ∧ (∀ st w, parse_arg st "-5" w = (inr st, w))
  ∧ (∀ prog inp outp pre post fs0,
       run_script Example.PIL Example.refuses Example.cwd SUPPORTED_FORMATS
         (prog :: inp :: outp :: pre ++ "-5" :: post) fs0
       = run_script Example.PIL Example.refuses Example.cwd SUPPORTED_FORMATS
           (prog :: inp :: outp :: pre ++ post) fs0)
  ∧ (∀ prog inp outp w,
       main Example.PIL Example.refuses Example.cwd SUPPORTED_FORMATS [prog; inp; outp; "-5"] w
       = convert_to_webp Example.PIL Example.refuses Example.cwd SUPPORTED_FORMATS inp outp 85 false w).
Proof.
  assert ("-5" ≠ "--overwrite") as Hne by discriminate.
  assert (Str.isdigit "-5" = false) as Hd by (by vm_compute).
  split; [by split|].
  exact (unrecognised_argument_is_ignored Example.PIL Example.refuses Example.cwd SUPPORTED_FORMATS
           "-5" Hne Hd).
Defined.


(** [photos/] is a directory and, with [out/] made, has image files. *)
Lemma photos_is_a_directory :
  os.is_dir Example.refuses Example.photos (pathlib.Path_of_str "photos") = inr true.
Proof. by vm_compute. Qed.







(** C9, amended, at [photos/a.png], an RGBA image. *)
Lemma rgba_png_is_saved_with_method_6 :
  let f : Path := ("", ["photos"; "a.png"]) in
  let o : Path := ("", ["out"; "a.webp"]) in
  let fs1 := <[("", ["out"]) := Dir]> Example.photos in
  let w := mkWorld fs1 [] in
  let c := mkCounters 0 0 0 in
  let w' := printed (mkWorld (<[o := File [Byte.x02; Byte.x55; Byte.x06]]> fs1) [])
              (converted_line f o) in
  try_block Example.PIL f o 85 c w = (inr (incr_converted c), w')
  ∧ (∀ img : Image Example.PIL,
       (mode Example.PIL img ∈ ["RGBA"; "LA"; "P"] →
        save_as_webp Example.PIL img o 85 = Image_save Example.PIL img o 85 (Some 6))
       ∧ (mode Example.PIL img ∉ ["RGBA"; "LA"; "P"] →
          save_as_webp Example.PIL img o 85 = Image_save Example.PIL img o 85 None))
  ∧ ∃ bytes img data,
      fs w !! f = Some (File bytes)
      ∧ decode Example.PIL bytes = inr img
      ∧ webp_encode Example.PIL img 85
          (if bool_decide (mode Example.PIL img ∈ ["RGBA"; "LA"; "P"])
           then Some 6 else None)
        = inr data
      ∧ fs w' = <[o := File data]> (fs w).
Proof.
  intros f o fs1 w c w'.
  assert (try_block Example.PIL f o 85 c w = (inr (incr_converted c), w')) as Htry.
  { pose proof (try_block_run Example.PIL f o 85 c w) as Hrun. cbv zeta in Hrun.
    replace (attempt Example.PIL f o 85 (fs w !! f) (fs w !! o)
               (fs w !! pathlib.parent o))
      with (Wrote [Byte.x02; Byte.x55; Byte.x06]) in Hrun by (by vm_compute).
    exact Hrun. }
  split; [exact Htry|].
  exact (method_6_for_RGBA_LA_P Example.PIL f o 85 c (incr_converted c) w w' Htry).
Defined.

(** The first run on [photos/] returns. *)
Lemma photos_first_run_returns :
  (convert_to_webp Example.PIL Example.refuses Example.cwd SUPPORTED_FORMATS "photos" "out" 85 false
     (mkWorld Example.photos [])).1 = inr tt.
Proof. by vm_compute. Qed.

(** C8, amended, at [photos/], converted into [out/] twice, the second
    time with the formats iterated in reverse. *)
Lemma photos_second_run_writes_nothing :
  let w0 := mkWorld Example.photos [] in
  let w1 :=
    (convert_to_webp Example.PIL Example.refuses Example.cwd SUPPORTED_FORMATS "photos" "out" 85 false
       w0).2 in
  (SUPPORTED_FORMATS ≡ₚ SUPPORTED_FORMATS
   ∧ reverse SUPPORTED_FORMATS ≡ₚ SUPPORTED_FORMATS
   ∧ convert_to_webp Example.PIL Example.refuses Example.cwd SUPPORTED_FORMATS "photos" "out" 85 false w0
     = (inr tt, w1))
  ∧ (∃ w2, convert_to_webp Example.PIL Example.refuses Example.cwd (reverse SUPPORTED_FORMATS)
             "photos" "out" 85 false w1 = (inr tt, w2)
           ∧ fs w2 = fs w1)
  ∧ (∀ c f o w,
       output_file_of (pathlib.Path_of_str "out") f = inr o →
       f ≠ o → os.exists_ Example.refuses (fs w) o = inr true →
       loop_body Example.PIL Example.refuses (pathlib.Path_of_str "out") 85 false c f w
         = (inr (incr_skipped c), printed w (skipping_exists f))).
Proof.
  intros w0 w1.
  assert (reverse SUPPORTED_FORMATS ≡ₚ SUPPORTED_FORMATS) as Hrev
    by apply reverse_Permutation.
  assert (convert_to_webp Example.PIL Example.refuses Example.cwd SUPPORTED_FORMATS "photos" "out" 85
            false w0 = (inr tt, w1)) as Hrun.
  { pose proof photos_first_run_returns as H1. fold w0 in H1. subst w1.
    destruct (convert_to_webp Example.PIL Example.refuses Example.cwd SUPPORTED_FORMATS "photos" "out"
                85 false w0) as [r w']. simpl in H1. by subst r. }
  split; [split; [reflexivity | split; [exact Hrev | exact Hrun]]|].
  exact (second_run_writes_nothing Example.PIL Example.refuses Example.cwd SUPPORTED_FORMATS
           (reverse SUPPORTED_FORMATS) "photos" "out" 85 w0 w1
           (reflexivity _) Hrev Hrun).
Defined.

(** The scenario of three images: the first run converts all three. *)
Example photos_first_run_output :
  stdout (run_script Example.PIL Example.refuses Example.cwd SUPPORTED_FORMATS
            [Example.script; "photos"; "out"] Example.photos).2
  = [ "Output folder: /home/user/out";
      "Found 3 image(s) to convert";
      "Output quality: 85";
      "--------------------------------------------------";
      "Converted: b.jpg -> b.webp";
      "Converted: a.png -> a.webp";
      "Converted: c.webp -> c.webp";
      "--------------------------------------------------";
      "Conversion complete!";
      "  Converted: 3";
      "  Skipped: 0";
      "  Errors: 0" ].
Proof. by vm_compute. Qed.

(** The same command again: all three are skipped, their outputs exist. *)
Example photos_second_run_output :
  stdout (run_script Example.PIL Example.refuses Example.cwd SUPPORTED_FORMATS
            [Example.script; "photos"; "out"]
            (fs (run_script Example.PIL Example.refuses Example.cwd SUPPORTED_FORMATS
                   [Example.script; "photos"; "out"] Example.photos).2)).2
  = [ "Output folder: /home/user/out";
      "Found 3 image(s) to convert";
      "Output quality: 85";
      "--------------------------------------------------";
      "Skipping: b.jpg (output already exists)";
      "Skipping: a.png (output already exists)";
      "Skipping: c.webp (output already exists)";
      "--------------------------------------------------";
      "Conversion complete!";
      "  Converted: 0";
      "  Skipped: 3";
      "  Errors: 0" ].
Proof. by vm_compute. Qed.

(** A folder with a file Pillow cannot identify and one it cannot encode:
    both are counted as errors, the file between them is converted, and the process
    exits with status 0. *)
Example mixed_run_output :
  (run_script Example.PIL Example.refuses Example.cwd SUPPORTED_FORMATS
     [Example.script; "mixed"; "out"; "90"] Example.mixed).1 = 0
  ∧ stdout (run_script Example.PIL Example.refuses Example.cwd SUPPORTED_FORMATS
              [Example.script; "mixed"; "out"; "90"] Example.mixed).2
    = [ "Output folder: /home/user/out";
        "Found 3 image(s) to convert";
        "Output quality: 90";
        "--------------------------------------------------";
        "Error converting worse.png: cannot write file as WebP (encoder returned None)";
        "Converted: good.png -> good.webp";
        "Error converting bad.png: cannot identify image file";
        "--------------------------------------------------";
        "Conversion complete!";
        "  Converted: 1";
        "  Skipped: 0";
        "  Errors: 2" ].
Proof. split; by vm_compute. Qed.

(** * Further properties of the script *)

#[local] Arguments os.Path_mkdir : simpl never.
#[local] Arguments os.exists_ : simpl never.
#[local] Arguments os.is_dir : simpl never.
#[local] Arguments image_files : simpl never.
#[local] Arguments pathlib.Path_of_str : simpl never.
#[local] Arguments loop_body : simpl never.
#[local] Arguments str_mul : simpl never.

(** ** The command line *)

(** What the argument loop returns when it returns: it prints nothing, the
    overwrite flag is on exactly when it was on before or ["--overwrite"] is
    among the arguments, and a quality within 1..100 stays within 1..100. *)
Lemma overwrite_here (extras : list string) :
  bool_decide ("--overwrite" ∈ "--overwrite" :: extras) = true.
Proof. apply bool_decide_eq_true. by left. Qed.

Lemma overwrite_further (a : string) (extras : list string) :
  a ≠ "--overwrite" →
  bool_decide ("--overwrite" ∈ a :: extras) = bool_decide ("--overwrite" ∈ extras).
Proof.
  intros Hne. apply bool_decide_ext. rewrite elem_of_cons.
  split; [intros [H|H]; [by subst | done] | by right].
Qed.

Lemma overwrite_nowhere : bool_decide ("--overwrite" ∈ @nil string) = false.
Proof. apply bool_decide_eq_false, not_elem_of_nil. Qed.

Lemma parse_args_returns extras st st' w w' :
  for_ extras parse_arg st w = (inr st', w') →
  w' = w
  ∧ st'.2 = st.2 || bool_decide ("--overwrite" ∈ extras)
  ∧ (1 ≤ st.1 ≤ 100 → 1 ≤ st'.1 ≤ 100).
Proof.
  revert st. induction extras as [|a extras IH]; intros st.
  { intros [= <- <-]. rewrite overwrite_nowhere, orb_false_r. done. }
  rewrite for_cons, bind_run.
  destruct (decide (a = "--overwrite")) as [->|Hne].
  { rewrite parse_arg_overwrite, overwrite_here, orb_true_r.
    intros H. apply IH in H as (Hw & How & Hq). simpl in *.
    split; [done|]. split; [|done]. by rewrite How. }
  rewrite overwrite_further by done.
  destruct (Str.isdigit a) eqn:Hd.
  2:{ rewrite parse_arg_other by done. apply IH. }
  destruct (int a) as [e|v] eqn:Hv.
  { unfold parse_arg. rewrite decide_False, Hd, Hv by done. by rewrite bind_run. }
  rewrite (parse_arg_quality st a v w Hv).
  destruct ((v <? 1) || (v >? 100)) eqn:Hr; [done|].
  intros H. apply IH in H as (Hw & How & Hq). simpl in *.
  split; [done|]. split; [done|]. intros _. apply Hq.
  apply orb_false_iff in Hr as [H1 H2].
  apply Z.ltb_ge in H1. rewrite Z.gtb_ltb in H2. apply Z.ltb_ge in H2. lia.
Qed.

Section CommandLine.
Context (PIL : Pillow) (refuses : Refusals) (cwd : Path) (set_order : list string).

(** X1.  With fewer than two arguments after the script name, the script
    prints the six usage lines and exits with status 1; the file system is
    not touched. *)
Theorem too_few_arguments_print_usage (argv : list string) (fs0 : FS) :
  (length argv < 3)%nat →
  run_script PIL refuses cwd set_order argv fs0 = (1, mkWorld fs0 usage).
Proof.
  intros Hlen. unfold run_script, main.
  apply Nat.ltb_lt in Hlen. by rewrite Hlen.
Qed.

(** X2.  When every extra argument is acceptable, [main] calls
    [convert_to_webp] on the first two arguments, with [overwrite] on exactly
    when ["--overwrite"] occurs among the extra arguments, wherever it
    stands and however often, and with a quality between 1 and 100. *)
Theorem overwrite_flag_anywhere (prog inp outp : string) (extras : list string) (w : World) :
  Forall accepted extras →
  ∃ q, 1 ≤ q ≤ 100
       ∧ main PIL refuses cwd set_order (prog :: inp :: outp :: extras) w
         = convert_to_webp PIL refuses cwd set_order inp outp q
             (bool_decide ("--overwrite" ∈ extras)) w.
Proof.
  intros Hacc.
  destruct (parse_args_accepted extras (85, false) w Hacc) as [[q ow] Hparse].
  destruct (parse_args_returns extras (85, false) (q, ow) w w Hparse)
    as (_ & How & Hq). simpl in *.
  exists q. split; [apply Hq; lia|].
  by rewrite main_run, bind_run, Hparse, How.
Qed.

(** X3.  The last digit-string argument sets the quality: when it is within
    1..100, the arguments before it are acceptable and no digit string comes
    after it, [convert_to_webp] is called with its value. *)
Theorem last_quality_wins (prog inp outp a : string) (pre post : list string)
    (v : Z) (w : World) :
  Forall accepted pre →
  int a = inr v → 1 ≤ v ≤ 100 →
  Forall (λ b, Str.isdigit b = false) post →
  main PIL refuses cwd set_order (prog :: inp :: outp :: pre ++ a :: post) w
  = convert_to_webp PIL refuses cwd set_order inp outp v
      (bool_decide ("--overwrite" ∈ (pre ++ post)%list)) w.
Proof.
  intros Hpre Hv Hrange Hpost.
  destruct (parse_args_accepted pre (85, false) w Hpre) as [[q0 ow0] Hparse].
  destruct (parse_args_returns pre (85, false) (q0, ow0) w w Hparse)
    as (_ & How0 & _). simpl in How0.
  assert (∀ st : Z * bool,
            for_ post parse_arg st w
            = (inr (st.1, st.2 || bool_decide ("--overwrite" ∈ post)), w)) as Hp.
  { clear -Hpost. induction Hpost as [|b post Hb _ IH]; intros st.
    { rewrite overwrite_nowhere, orb_false_r. by destruct st. }
    rewrite for_cons, bind_run.
    destruct (decide (b = "--overwrite")) as [->|Hne].
    - rewrite parse_arg_overwrite, IH, overwrite_here. simpl.
      by rewrite orb_true_r.
    - by rewrite parse_arg_other, IH, overwrite_further. }
  rewrite main_run, bind_run, for_app, bind_run, Hparse, for_cons, bind_run.
  rewrite (parse_arg_quality (q0, ow0) a v w Hv).
  replace ((v <? 1) || (v >? 100)) with false.
  2:{ symmetry. apply orb_false_iff. rewrite Z.ltb_ge, Z.gtb_ltb, Z.ltb_ge. lia. }
  rewrite Hp. simpl. rewrite How0. do 2 f_equal.
  assert ("--overwrite" ≠ a) as Hne by (intros <-; by vm_compute in Hv).
  destruct (bool_decide ("--overwrite" ∈ pre)) eqn:H1.
  - apply bool_decide_eq_true in H1. symmetry. apply bool_decide_eq_true.
    apply elem_of_app. by left.
  - apply bool_decide_eq_false in H1. simpl. apply bool_decide_ext.
    rewrite elem_of_app. split; [by right | by intros [H|H]].
Qed.

End CommandLine.

(** ** The exit status *)

Section MkdirRaises.
Context (refuses : Refusals).

Lemma os_mkdir_inl (fs0 : FS) (p : Path) (e : exn) :
  os.mkdir refuses fs0 p = inl e → ∃ kind, e = OSError kind p.
Proof.
  unfold os.mkdir. destruct (fs0 !! p); [intros [= <-]; by eexists|].
  destruct (refuses p); [intros [= <-]; by eexists|].
  destruct (fs0 !! pathlib.parent p) as [[|d]|]; intros [= <-]; by eexists.
Qed.

Lemma mkdir_except_inl (ok : bool) (fs0 : FS) (p : Path) (kind : oserror) (e : exn) :
  os.mkdir_except refuses ok fs0 p (OSError kind p) = inl e →
  ∃ kind', e = OSError kind' p.
Proof.
  unfold os.mkdir_except. destruct ok; [|intros [= <-]; by eexists].
  destruct (os.is_dir refuses fs0 p) as [e'|[]] eqn:Hd;
    [|done|intros [= <-]; by eexists].
  intros [= <-]. apply is_dir_raises, exists_raises in Hd as (_ & kind' & _ & ->).
  by eexists.
Qed.

Lemma Path_mkdir_single_inl (ok : bool) (fs0 : FS) (p : Path) (e : exn) :
  os.Path_mkdir_single refuses ok fs0 p = inl e → ∃ kind, e = OSError kind p.
Proof.
  unfold os.Path_mkdir_single.
  destruct (os.mkdir refuses fs0 p) as [e'|fs1] eqn:Hm; [|done].
  apply os_mkdir_inl in Hm as [kind ->].
  destruct kind; try (intros [= <-]; by eexists); apply mkdir_except_inl.
Qed.

Lemma Path_mkdir_parents_inl (ok : bool) (fs0 : FS) (a : string)
    (rparts : list string) (e : exn) :
  os.Path_mkdir_parents refuses ok fs0 a rparts = inl e → ∃ kind q, e = OSError kind q.
Proof.
  revert ok fs0. induction rparts as [|m rparts IH]; intros ok fs0; simpl.
  - destruct (os.mkdir refuses fs0 (a, reverse [])) as [e'|fs1] eqn:Hm; [|done].
    apply os_mkdir_inl in Hm as [kind ->].
    destruct kind; try (intros [= <-]; by eexists _, _);
      (intros [kind' ->]%mkdir_except_inl; by eexists _, _).
  - destruct (os.mkdir refuses fs0 (a, reverse (m :: rparts))) as [e'|fs1] eqn:Hm; [|done].
    apply os_mkdir_inl in Hm as [kind ->].
    destruct kind;
      try (intros [kind' ->]%mkdir_except_inl; by eexists _, _).
    destruct (os.Path_mkdir_parents refuses true fs0 a rparts) as [e'|fs1] eqn:Hp.
    + intros [= <-]. by eapply IH.
    + intros Hs. apply Path_mkdir_single_inl in Hs as [kind ->]. by eexists _, _.
Qed.

(** [mkdir] raises nothing but [OSError]s. *)
Lemma Path_mkdir_inl (fs0 : FS) (p : Path) (e : exn) :
  os.Path_mkdir refuses true true fs0 p = inl e → ∃ kind q, e = OSError kind q.
Proof. unfold os.Path_mkdir. apply Path_mkdir_parents_inl. Qed.


End MkdirRaises.

Section ExitStatus.
Context (PIL : Pillow) (refuses : Refusals) (cwd : Path) (set_order : list string).

(** One turn of the loop raises only when the image file has no name or
    when [exists()] raises for its output file; nothing has been printed or
    written then. *)
Lemma loop_body_raises (out : Path) (q : Z) (ow : bool) (c : counters) (f : Path) w e w' :
  loop_body PIL refuses out q ow c f w = (inl e, w') →
  w' = w
  ∧ ((output_file_of out f = inl e ∧ ∃ msg, e = ValueError msg)
     ∨ ∃ o, output_file_of out f = inr o ∧ f ≠ o
            ∧ os.exists_ refuses (fs w) o = inl e).
Proof.
  destruct (output_file_of out f) as [e'|o] eqn:Ho.
  - unfold loop_body. rewrite bind_run, Ho. unfold lift. intros [= <- <-].
    split; [done|]. left. split; [done|].
    unfold output_file_of, pathlib.with_suffix in Ho.
    destruct (Str.nonempty (pathlib.name f)); [done|].
    injection Ho as <-. by eexists.
  - rewrite (loop_body_run PIL refuses out q ow c f o w Ho).
    case_decide as Hfo; [done|].
    destruct (os.exists_ refuses (fs w) o) as [e'|there] eqn:Hex.
    + intros [= <- <-]. split; [done|]. right. by exists o.
    + destruct (there && negb ow); [done|]. simpl.
      by destruct (attempt PIL f o q (fs w !! f) (fs w !! o) (fs w !! pathlib.parent o)).
Qed.

Lemma loop_body_raises_Exception (out : Path) (q : Z) (ow : bool) (c : counters)
    (f : Path) w e w' :
  loop_body PIL refuses out q ow c f w = (inl e, w') → is_Exception e = true.
Proof.
  intros [_ [[_ [msg ->]]|(o & _ & _ & Hex)]]%loop_body_raises; [done|].
  by eapply exists_is_Exception.
Qed.

Lemma loop_raises (out : Path) (q : Z) (ow : bool) (files : list Path) (c : counters) w e w' :
  for_ files (loop_body PIL refuses out q ow) c w = (inl e, w') →
  is_Exception e = true.
Proof.
  revert c w. induction files as [|f files IH]; intros c w; [done|].
  rewrite for_cons, bind_run.
  destruct (loop_body PIL refuses out q ow c f w) as [[e1|c1] w1] eqn:Hb.
  - intros [= <- <-]. by eapply loop_body_raises_Exception.
  - apply IH.
Qed.

(** [convert_to_webp] never calls [sys.exit]: what it raises is an
    [OSError] from [exists()] or [mkdir], or a [ValueError]. *)
Lemma convert_raises_Exception (inp outp : string) (q : Z) (ow : bool) w e w' :
  convert_to_webp PIL refuses cwd set_order inp outp q ow w = (inl e, w') →
  is_Exception e = true.
Proof.
  destruct (os.is_dir refuses (fs w) (pathlib.Path_of_str inp)) as [e1|[]] eqn:Hd.
  { apply is_dir_raises in Hd.
    rewrite (convert_unexaminable PIL refuses cwd set_order inp outp q ow w e1 Hd).
    intros [= <- _]. by eapply exists_is_Exception. }
  2:{ destruct (convert_bad_input PIL refuses cwd set_order inp outp q ow w Hd)
        as (w1 & -> & _). done. }
  destruct (os.Path_mkdir refuses true true (fs w) (pathlib.Path_of_str outp))
    as [e1|fs1] eqn:Hm.
  { rewrite (convert_mkdir_raises PIL refuses cwd set_order inp outp q ow w e1 Hd Hm).
    intros [= <- _]. by apply Path_mkdir_inl in Hm as (kind & p & ->). }
  destruct (decide (image_files set_order fs1 (pathlib.Path_of_str inp) = []))
    as [Hnil|Hne].
  { by rewrite (convert_run PIL refuses cwd set_order inp outp q ow w fs1 Hd Hm), Hnil. }
  rewrite (convert_loop PIL refuses cwd set_order inp outp q ow w fs1 Hd Hm Hne).
  match goal with
  | |- context [for_ ?l ?b ?c ?W] => destruct (for_ l b c W) as [[e1|c1] w1] eqn:Hl
  end; [|done].
  intros [= <- _]. by apply loop_raises in Hl.
Qed.

(** X4.  The exit status is always 0 or 1, whatever the arguments, the file
    system and the decoder do. *)
Theorem exit_status_is_0_or_1 (argv : list string) (fs0 : FS) :
  (run_script PIL refuses cwd set_order argv fs0).1 = 0
  ∨ (run_script PIL refuses cwd set_order argv fs0).1 = 1.
Proof.
  destruct (decide (length argv < 3)%nat) as [Hlen|Hlen].
  { right. unfold run_script, main. apply Nat.ltb_lt in Hlen. by rewrite Hlen. }
  destruct argv as [|prog [|inp [|outp extras]]]; try (simpl in Hlen; lia).
  unfold run_script. rewrite main_run, bind_run.
  destruct (parse_args_shape extras (85, false) (mkWorld fs0 []))
    as [[st ->]|[->|[msg ->]]]; [|by right..].
  destruct (convert_to_webp PIL refuses cwd set_order inp outp st.1 st.2 (mkWorld fs0 []))
    as [[e|[]] w'] eqn:Hc; [|by left].
  apply convert_raises_Exception in Hc. right. by destruct e.
Qed.



(** X16.  The two [exists()] calls are outside the [try] statement, so an
    [OSError] they raise is not caught.  Raised for the input path, it ends
    the script with status 1, nothing printed and nothing changed.  Raised
    for the output file of an image file, it ends the loop at that file:
    [convert_to_webp] raises it with the file system and standard output as
    the turns before have left them, and no summary is printed. *)
Theorem unexaminable_path_is_fatal (inp outp : string) :
  (∀ prog extras fs0 e,
     Forall accepted extras →
     os.exists_ refuses fs0 (pathlib.Path_of_str inp) = inl e →
     run_script PIL refuses cwd set_order (prog :: inp :: outp :: extras) fs0
       = (1, mkWorld fs0 []))
  ∧ (∀ q ow w fs1 pre f post o e c1 w1,
       os.is_dir refuses (fs w) (pathlib.Path_of_str inp) = inr true →
       os.Path_mkdir refuses true true (fs w) (pathlib.Path_of_str outp) = inr fs1 →
       let out := pathlib.Path_of_str outp in
       let files := image_files set_order fs1 (pathlib.Path_of_str inp) in
       files = (pre ++ f :: post)%list →
       for_ pre (loop_body PIL refuses out q ow) (mkCounters 0 0 0)
         (mkWorld fs1 (stdout w ++ header_lines cwd out (length files) q))
         = (inr c1, w1) →
       output_file_of out f = inr o →
       f ≠ o →
       os.exists_ refuses (fs w1) o = inl e →
       convert_to_webp PIL refuses cwd set_order inp outp q ow w = (inl e, w1)
       ∧ ∃ kind, e = OSError kind o).
Proof.
  split.
  - intros prog extras fs0 e Hacc Hex.
    unfold run_script. rewrite main_run, bind_run.
    destruct (parse_args_accepted extras (85, false) (mkWorld fs0 []) Hacc)
      as [st ->].
    rewrite (convert_unexaminable PIL refuses cwd set_order inp outp st.1 st.2
               (mkWorld fs0 []) e Hex).
    by apply exists_raises in Hex as (_ & kind & _ & ->).
  - intros q ow w fs1 pre f post o e c1 w1 Hd Hm out files Hfiles Hpre Ho Hne Hex.
    split; [|apply exists_raises in Hex as (_ & kind & _ & ->); by eexists].
    rewrite (convert_loop PIL refuses cwd set_order inp outp q ow w fs1 Hd Hm).
    2:{ fold files. rewrite Hfiles. by destruct pre. }
    fold out files. rewrite Hfiles at 1.
    rewrite for_app, bind_run, Hpre, for_cons, bind_run.
    rewrite (loop_body_run PIL refuses out q ow c1 f o w1 Ho).
    rewrite decide_False by done. by rewrite Hex.
Qed.

End ExitStatus.

(** ** The image files of the input folder *)

Lemma glob_suffixes_list :
  glob_suffixes
  = [ ".jpg"; ".jpeg"; ".png"; ".bmp"; ".gif"; ".tiff"; ".tif"; ".webp";
      ".JPG"; ".JPEG"; ".PNG"; ".BMP"; ".GIF"; ".TIFF"; ".TIF"; ".WEBP" ].
Proof. by vm_compute. Qed.

Lemma elem_of_glob_suffixes (ext : string) :
  ext ∈ SUPPORTED_FORMATS → ext ∈ glob_suffixes ∧ Str.upper ext ∈ glob_suffixes.
Proof.
  intros H. unfold glob_suffixes. split; apply elem_of_app; [by left | right].
  by apply list_elem_of_fmap_2.
Qed.

(** No suffix is the end of another one. *)
Lemma glob_suffixes_apart (s1 s2 : string) :
  s1 ∈ glob_suffixes → s2 ∈ glob_suffixes → Str.endswith s1 s2 = true → s1 = s2.
Proof.
  assert (Forall (λ s1, Forall (λ s2, Str.endswith s1 s2 = true → s1 = s2)
                          glob_suffixes) glob_suffixes) as H.
  { refine (bool_decide_unpack _ _). by vm_compute. }
  intros H1 H2. rewrite Forall_forall in H. specialize (H s1 H1).
  rewrite Forall_forall in H. by apply H.
Qed.

(** Upper case tells the formats apart and differs from lower case. *)
Lemma upper_formats_apart (e1 e2 : string) :
  e1 ∈ SUPPORTED_FORMATS → e2 ∈ SUPPORTED_FORMATS →
  e1 ≠ Str.upper e2 ∧ (Str.upper e1 = Str.upper e2 → e1 = e2).
Proof.
  assert (Forall (λ e1, Forall (λ e2, e1 ≠ Str.upper e2
                                      ∧ (Str.upper e1 = Str.upper e2 → e1 = e2))
                          SUPPORTED_FORMATS) SUPPORTED_FORMATS) as H.
  { refine (bool_decide_unpack _ _). by vm_compute. }
  intros H1 H2. rewrite Forall_forall in H. specialize (H e1 H1).
  rewrite Forall_forall in H. by apply H.
Qed.

(** Two ends of one string: one is an end of the other. *)
Lemma endswith_both (n s1 s2 : string) :
  Str.endswith n s1 = true → Str.endswith n s2 = true →
  Str.endswith s1 s2 = true ∨ Str.endswith s2 s1 = true.
Proof.
  rewrite !endswith_app. intros [p1 H1] [p2 H2]. subst n.
  revert p2 H2. induction p1 as [|c p1 IH]; intros p2 H2.
  { left. rewrite StrFacts.app_nil_l in H2. by exists p2. }
  destruct p2 as [|d p2].
  { right. rewrite StrFacts.app_nil_l in H2. by exists (String c p1). }
  rewrite !StrFacts.app_cons in H2. injection H2 as _ H2. by apply (IH p2).
Qed.

(** A name ends with at most one of the suffixes. *)
Lemma one_suffix_per_name (n s1 s2 : string) :
  s1 ∈ glob_suffixes → s2 ∈ glob_suffixes →
  Str.endswith n s1 = true → Str.endswith n s2 = true → s1 = s2.
Proof.
  intros H1 H2 He1 He2.
  destruct (endswith_both n s1 s2 He1 He2) as [H|H].
  - by apply glob_suffixes_apart.
  - symmetry. by apply glob_suffixes_apart.
Qed.

Lemma NoDup_omap_inj {A B} (f : A → option B) (l : list A) :
  (∀ x y z, f x = Some z → f y = Some z → x = y) →
  NoDup l → NoDup (omap f l).
Proof.
  intros Hinj. induction 1 as [|x l Hx Hl IH]; simpl; [constructor|].
  destruct (f x) as [z|] eqn:Hfx; [|done].
  constructor; [|done].
  intros Hz. apply list_elem_of_omap in Hz as (y & Hy & Hfy).
  by rewrite (Hinj x y z Hfx Hfy) in Hx.
Qed.

Lemma NoDup_scandir (fs0 : FS) (p : Path) : NoDup (os.scandir fs0 p).
Proof.
  unfold os.scandir. apply NoDup_omap_inj; [|apply NoDup_fst_map_to_list].
  intros x y n Hx Hy. apply child_name_Some in Hx, Hy. congruence.
Qed.

Lemma NoDup_glob (fs0 : FS) (p : Path) (suffix : string) :
  NoDup (os.glob fs0 p suffix).
Proof.
  unfold os.glob. apply NoDup_fmap_2_strong; [|apply NoDup_filter, NoDup_scandir].
  intros n m _ _ H. by apply joinpath_inj in H as [_ ?].
Qed.

Section ImageFiles.
Context (set_order : list string).
Hypothesis set_order_lists_the_formats : set_order ≡ₚ SUPPORTED_FORMATS.

(** X7.  The image files are exactly the entries of the input folder itself
    (not of its subfolders) whose name ends with one of the eight formats,
    spelled all in lower case or all in upper case; what kind of node the
    entry is plays no part. *)
Theorem image_files_are_the_matching_entries (fs0 : FS) (inp f : Path) :
  f ∈ image_files set_order fs0 inp ↔
  ∃ n suffix, f = inp </> n ∧ is_Some (fs0 !! f)
              ∧ suffix ∈ glob_suffixes ∧ Str.endswith n suffix = true.
Proof.
  rewrite elem_of_image_files. split.
  - intros (n & ext & -> & Hx & Hext & He).
    rewrite set_order_lists_the_formats in Hext.
    destruct (elem_of_glob_suffixes ext Hext) as [Hl Hu].
    destruct He as [He|He]; [by exists n, ext | by exists n, (Str.upper ext)].
  - intros (n & suffix & -> & Hx & Hs & He).
    unfold glob_suffixes in Hs. apply elem_of_app in Hs as [Hs|Hs].
    + exists n, suffix. rewrite set_order_lists_the_formats. auto.
    + apply list_elem_of_fmap in Hs as (ext & -> & Hext).
      exists n, ext. rewrite set_order_lists_the_formats. auto.
Qed.

(** X8.  No entry is listed twice, whatever the order of the formats: a
    file is processed once in a run. *)
Theorem no_image_file_is_listed_twice (fs0 : FS) (inp : Path) :
  NoDup (image_files set_order fs0 inp).
Proof.
  assert (∀ ext, ext ∈ set_order → ext ∈ SUPPORTED_FORMATS) as Hin
    by (intros ext; by rewrite set_order_lists_the_formats).
  assert (∀ ext f, ext ∈ set_order →
            f ∈ (os.glob fs0 inp ext ++ os.glob fs0 inp (Str.upper ext))%list →
            ∃ n s, f = inp </> n ∧ Str.endswith n s = true
                   ∧ (s = ext ∨ s = Str.upper ext)) as Hshape.
  { intros ext f _ Hf. apply elem_of_app in Hf as [Hf|Hf];
      apply elem_of_glob in Hf as (n & -> & _ & He); eauto 6. }
  unfold image_files. apply NoDup_bind.
  - intros e1 e2 f H1 H2 Hf1 Hf2.
    destruct (Hshape e1 f H1 Hf1) as (n & s1 & -> & He1 & Hs1).
    destruct (Hshape e2 _ H2 Hf2) as (m & s2 & Hnm & He2 & Hs2).
    apply joinpath_inj in Hnm as [_ <-].
    apply Hin in H1, H2.
    destruct (elem_of_glob_suffixes e1 H1) as [Hl1 Hu1].
    destruct (elem_of_glob_suffixes e2 H2) as [Hl2 Hu2].
    assert (s1 = s2) as Heq.
    { apply (one_suffix_per_name n); try done;
        [by destruct Hs1 as [->| ->] | by destruct Hs2 as [->| ->]]. }
    destruct (upper_formats_apart e1 e2 H1 H2) as [Hne Hup].
    destruct (upper_formats_apart e2 e1 H2 H1) as [Hne' _].
    destruct Hs1 as [->| ->], Hs2 as [->| ->].
    + done.
    + by destruct Hne.
    + destruct Hne'. by symmetry.
    + by apply Hup.
  - intros ext Hext. apply NoDup_app. split; [apply NoDup_glob|].
    split; [|apply NoDup_glob].
    intros f Hf1 Hf2.
    apply elem_of_glob in Hf1 as (n & -> & _ & He1).
    apply elem_of_glob in Hf2 as (m & Hnm & _ & He2).
    apply joinpath_inj in Hnm as [_ <-].
    apply Hin in Hext. destruct (elem_of_glob_suffixes ext Hext) as [Hl Hu].
    destruct (upper_formats_apart ext ext Hext Hext) as [Hne _].
    apply Hne. by apply (one_suffix_per_name n).
  - rewrite set_order_lists_the_formats. refine (bool_decide_unpack _ _).
    by vm_compute.
Qed.

End ImageFiles.

(** ** Output files *)

(** Every suffix is a dot followed by letters. *)
Lemma glob_suffix_shape (s : string) :
  s ∈ glob_suffixes →
  ∃ letters, s = String "."%char letters ∧ Str.rsplit_dot letters = None
             ∧ Str.nonempty letters = true.
Proof.
  rewrite glob_suffixes_list. intros H.
  repeat (apply elem_of_cons in H as [->|H];
          [eexists; split; [reflexivity | split; by vm_compute]|]).
  by apply elem_of_nil in H.
Qed.

Lemma image_file_has_suffix (set_order : list string) (fs0 : FS) (inp f : Path) :
  set_order ≡ₚ SUPPORTED_FORMATS →
  f ∈ image_files set_order fs0 inp →
  ∃ stem suffix, suffix ∈ glob_suffixes ∧ f = inp </> (stem ++ suffix).
Proof.
  intros Hp Hf. apply elem_of_image_files in Hf as (n & ext & -> & _ & Hext & He).
  rewrite Hp in Hext. destruct (elem_of_glob_suffixes ext Hext) as [Hl Hu].
  destruct He as [He|He]; apply endswith_app in He as [stem ->]; eauto.
Qed.

(** The new name of a file whose name is a stem and a suffix. *)
Lemma with_suffix_name_of_suffixed (stem suffix : string) :
  suffix ∈ glob_suffixes →
  pathlib.with_suffix_name (stem ++ suffix) ".webp"
  = if Str.nonempty stem then stem ++ ".webp" else suffix ++ ".webp".
Proof.
  intros Hs. destruct (glob_suffix_shape suffix Hs) as (letters & -> & Hdot & Hne).
  unfold pathlib.with_suffix_name. rewrite rsplit_dot_app by done. rewrite Hne.
  destruct stem; [by rewrite StrFacts.app_nil_l | done].
Qed.

(** X9.  The output file of an image file lies in the output folder and
    keeps the file's name with the matched extension replaced by [.webp];
    a file whose whole name is the extension (such as [.jpg]) gets [.webp]
    appended instead. *)
Theorem output_name_replaces_the_extension (set_order : list string)
    (fs0 : FS) (inp out f : Path) :
  set_order ≡ₚ SUPPORTED_FORMATS →
  f ∈ image_files set_order fs0 inp →
  ∃ stem suffix,
    suffix ∈ glob_suffixes
    ∧ f = inp </> (stem ++ suffix)
    ∧ output_file_of out f
      = inr (out </> (if Str.nonempty stem then stem ++ ".webp"
                      else suffix ++ ".webp")).
Proof.
  intros Hp Hf.
  destruct (image_file_has_suffix set_order fs0 inp f Hp Hf)
    as (stem & suffix & Hs & ->).
  exists stem, suffix. split; [done|]. split; [done|].
  rewrite output_file_of_joinpath, with_suffix_name_of_suffixed; [done..|].
  destruct (glob_suffix_shape suffix Hs) as (letters & -> & _).
  intros H. by apply StrFacts.app_eq_nil in H as [_ ?].
Qed.

(** X10.  An entry of the input folder is its own output file exactly when
    the output folder is the input folder and the entry's name is a
    non-empty stem followed by [.webp] in lower case. *)
Theorem own_output_exactly_for_webp_in_place (inp out : Path) (n : string) :
  n ≠ "" →
  output_file_of out (inp </> n) = inr (inp </> n)
  ↔ out = inp ∧ ∃ stem, stem ≠ "" ∧ n = stem ++ ".webp".
Proof.
  intros Hn. rewrite output_file_of_joinpath by done. split.
  - intros H. assert (out </> pathlib.with_suffix_name n ".webp" = inp </> n)
      as Heq by congruence.
    apply joinpath_inj in Heq as [-> Heq]. split; [done|].
    destruct (with_suffix_name_stem n ".webp" Hn) as (stem & Hs & Hw).
    exists stem. split; [done|]. congruence.
  - intros [-> (stem & Hs & ->)]. do 2 f_equal.
    unfold pathlib.with_suffix_name.
    rewrite (rsplit_dot_app stem "webp") by done.
    apply nonempty_true in Hs. by rewrite Hs.
Qed.

(** In place, [.webp] alone and [c.WEBP] are not their own output files. *)
Example dot_webp_and_upper_case_are_converted_in_place :
  output_file_of ("", ["d"]) ("", ["d"; ".webp"]) = inr ("", ["d"; ".webp.webp"])
  ∧ output_file_of ("", ["d"]) ("", ["d"; "c.WEBP"]) = inr ("", ["d"; "c.webp"]).
Proof. split; by vm_compute. Qed.

(** ** What a run does to the file system *)

(** [mkdir] only adds directories. *)
Section MkdirAdds.
Context (refuses : Refusals).

Lemma Path_mkdir_single_adds (ok : bool) (fs0 fs' : FS) (p k : Path) :
  os.Path_mkdir_single refuses ok fs0 p = inr fs' →
  fs' !! k = fs0 !! k ∨ (fs0 !! k = None ∧ fs' !! k = Some Dir).
Proof.
  unfold os.Path_mkdir_single.
  destruct (os.mkdir refuses fs0 p) as [e|fs1] eqn:Hm.
  - destruct e as [| [] q | |]; try done;
      (intros [-> _]%mkdir_except_inr; by left).
  - intros [= <-]. apply os_mkdir_inr in Hm as [Hnone ->].
    destruct (decide (p = k)) as [->|Hne].
    + right. by rewrite lookup_insert_eq.
    + left. by rewrite lookup_insert_ne.
Qed.

Lemma Path_mkdir_parents_adds (ok : bool) (fs0 fs' : FS) (a : string)
    (rparts : list string) (k : Path) :
  os.Path_mkdir_parents refuses ok fs0 a rparts = inr fs' →
  fs' !! k = fs0 !! k ∨ (fs0 !! k = None ∧ fs' !! k = Some Dir).
Proof.
  revert ok fs0 fs'. induction rparts as [|m rparts IH]; intros ok fs0 fs'.
  - simpl. destruct (os.mkdir refuses fs0 (a, reverse [])) as [e|fs1] eqn:Hm.
    + destruct e as [| [] q | |]; try done;
        (intros [-> _]%mkdir_except_inr; by left).
    + intros [= <-]. apply os_mkdir_inr in Hm as [Hnone ->].
      destruct (decide ((a, reverse []) = k)) as [<-|Hne].
      * right. by rewrite lookup_insert_eq.
      * left. by rewrite lookup_insert_ne.
  - simpl. destruct (os.mkdir refuses fs0 (a, reverse (m :: rparts))) as [e|fs1] eqn:Hm.
    + destruct e as [| [] q | |]; try done;
        try (intros [-> _]%mkdir_except_inr; by left).
      destruct (os.Path_mkdir_parents refuses true fs0 a rparts) as [e|fs1] eqn:Hp; [done|].
      intros Hs. apply IH in Hp.
      apply (Path_mkdir_single_adds _ _ _ _ k) in Hs.
      destruct Hs as [Hs|[Hs1 Hs2]], Hp as [Hp|[Hp1 Hp2]].
      * left. congruence.
      * right. split; [done|]. congruence.
      * right. split; [congruence | done].
      * congruence.
    + intros [= <-]. apply os_mkdir_inr in Hm as [Hnone ->].
      destruct (decide ((a, reverse (m :: rparts)) = k)) as [<-|Hne].
      * right. by rewrite lookup_insert_eq.
      * left. by rewrite lookup_insert_ne.
Qed.

Lemma Path_mkdir_adds (fs0 fs' : FS) (p k : Path) :
  os.Path_mkdir refuses true true fs0 p = inr fs' →
  fs' !! k = fs0 !! k ∨ (fs0 !! k = None ∧ fs' !! k = Some Dir).
Proof. unfold os.Path_mkdir. apply Path_mkdir_parents_adds. Qed.

End MkdirAdds.

(** The output file of an image file is an entry of the output folder with
    a name that ends in [.webp]. *)
Lemma output_file_shape (out f o : Path) :
  output_file_of out f = inr o →
  ∃ n, o = out </> n ∧ Str.endswith n ".webp" = true.
Proof.
  unfold output_file_of, pathlib.with_suffix.
  destruct (Str.nonempty (pathlib.name f)) eqn:Hn; [|done].
  intros [= <-]. eexists. split; [reflexivity|].
  unfold pathlib.name at 1. simpl. rewrite last_snoc. simpl.
  apply nonempty_true in Hn.
  destruct (with_suffix_name_stem _ ".webp" Hn) as (stem & _ & ->).
  apply endswith_app. by exists stem.
Qed.

Section Frame.
Context (PIL : Pillow) (refuses : Refusals).

(** An attempt writes only where there is no directory. *)
Lemma attempt_spares_directories (f o : Path) (q : Z) (nf no np : option node) :
  no = Some Dir →
  ∃ e, attempt PIL f o q nf no np = Failed e false.
Proof.
  intros ->. unfold attempt.
  destruct nf as [[|bytes]|]; [by eexists| |by eexists].
  destruct (decode PIL bytes); [by eexists|].
  destruct (load PIL _); by eexists.
Qed.

(** One turn, whether it returns or raises, changes at most the output
    file, which it leaves a regular file, and never a directory. *)
Lemma loop_body_changes (out : Path) (q : Z) (ow : bool) (c : counters) (f o : Path)
    w r w' :
  output_file_of out f = inr o →
  loop_body PIL refuses out q ow c f w = (r, w') →
  fs w' = fs w
  ∨ (fs w !! o ≠ Some Dir ∧ ∃ d, fs w' = <[o := File d]> (fs w)).
Proof.
  intros Ho. rewrite (loop_body_run PIL refuses out q ow c f o w Ho).
  case_decide; [intros [= _ <-]; by left|].
  destruct (os.exists_ refuses (fs w) o) as [e|there]; [intros [= _ <-]; by left|].
  destruct (there && negb ow); [intros [= _ <-]; by left|].
  simpl.
  destruct (fs w !! o) as [[|old]|] eqn:Hlook.
  { destruct (attempt_spares_directories f o q (fs w !! f) (Some Dir)
                (fs w !! pathlib.parent o) eq_refl) as [e ->].
    intros [= _ <-]. by left. }
  all: destruct (attempt PIL f o q (fs w !! f) _ (fs w !! pathlib.parent o))
         as [data|e [|]]; intros [= _ <-]; simpl;
       [right; split; [done | by eexists]
       |right; split; [done | by eexists]
       |by left].
Qed.

(** A run of the loop, to its end or to the turn that raises, changes only
    output files of its image files. *)
Lemma loop_changes (out : Path) (q : Z) (ow : bool) (files : list Path) (c : counters)
    w r w' :
  for_ files (loop_body PIL refuses out q ow) c w = (r, w') →
  ∀ k, fs w' !! k = fs w !! k
       ∨ (fs w !! k ≠ Some Dir
          ∧ ∃ g d, g ∈ files ∧ output_file_of out g = inr k
                   ∧ fs w' !! k = Some (File d)).
Proof.
  revert c w. induction files as [|f files IH]; intros c w.
  { intros [= _ <-] k. by left. }
  rewrite for_cons, bind_run.
  destruct (loop_body PIL refuses out q ow c f w) as [[e|c1] w1] eqn:Hb.
  { apply loop_body_raises in Hb as [-> _]. intros [= _ <-] k. by left. }
  intros Hl k.
  destruct (output_file_of out f) as [e|o] eqn:Ho.
  { unfold loop_body in Hb. by rewrite bind_run, Ho in Hb. }
  pose proof (loop_body_changes out q ow c f o w _ w1 Ho Hb) as Hstep.
  destruct (IH c1 w1 Hl k) as [Hk|(Hnd & g & d & Hg & Hgo & Hk)].
  - destruct Hstep as [Heq|(Hnd & d & Heq)]; rewrite Hk, Heq; [by left|].
    destruct (decide (o = k)) as [<-|Hne].
    + right. split; [done|]. exists f, d. rewrite lookup_insert_eq.
      split; [by left | done].
    + left. by rewrite lookup_insert_ne.
  - right. split.
    + destruct Hstep as [Heq|(Hnd' & d' & Heq)]; rewrite Heq in Hnd; [done|].
      destruct (decide (o = k)) as [<-|Hne]; [done|].
      by rewrite lookup_insert_ne in Hnd.
    + exists g, d. split; [by right | done].
Qed.

(** With [overwrite] off the loop changes nothing that is there. *)
Lemma loop_no_overwrite_subseteq (out : Path) (q : Z) (files : list Path) (c : counters)
    w r w' :
  for_ files (loop_body PIL refuses out q false) c w = (r, w') → fs w ⊆ fs w'.
Proof.
  revert c w. induction files as [|f files IH]; intros c w.
  { by intros [= _ <-]. }
  rewrite for_cons, bind_run.
  destruct (loop_body PIL refuses out q false c f w) as [[e|c1] w1] eqn:Hb.
  { apply loop_body_raises in Hb as [-> _]. by intros [= _ <-]. }
  intros Hl.
  destruct (output_file_of out f) as [e|o] eqn:Ho.
  { unfold loop_body in Hb. by rewrite bind_run, Ho in Hb. }
  etrans; [|by eapply IH].
  by eapply loop_body_no_overwrite_subseteq.
Qed.

End Frame.

Section RunFrame.
Context (PIL : Pillow) (refuses : Refusals) (cwd : Path) (set_order : list string).

(** The ways a call of [convert_to_webp] goes: the input folder is not
    found to be a directory or [mkdir] raises, and nothing changes; or the
    loop runs over the image files (none, possibly) from the file system
    [mkdir] leaves, to its end or to the turn that raises. *)
Lemma convert_outcomes (inp outp : string) (q : Z) (ow : bool) (w : World) :
  ((os.is_dir refuses (fs w) (pathlib.Path_of_str inp) ≠ inr true
    ∨ ∃ e, os.Path_mkdir refuses true true (fs w) (pathlib.Path_of_str outp) = inl e)
   ∧ fs (convert_to_webp PIL refuses cwd set_order inp outp q ow w).2 = fs w)
  ∨ ∃ fs1 wl r wl',
      os.is_dir refuses (fs w) (pathlib.Path_of_str inp) = inr true
      ∧ os.Path_mkdir refuses true true (fs w) (pathlib.Path_of_str outp) = inr fs1
      ∧ fs wl = fs1
      ∧ for_ (image_files set_order fs1 (pathlib.Path_of_str inp))
          (loop_body PIL refuses (pathlib.Path_of_str outp) q ow)
          (mkCounters 0 0 0) wl = (r, wl')
      ∧ fs (convert_to_webp PIL refuses cwd set_order inp outp q ow w).2 = fs wl'.
Proof.
  destruct (os.is_dir refuses (fs w) (pathlib.Path_of_str inp)) as [e|[]] eqn:Hd.
  { left. split; [by left|]. apply is_dir_raises in Hd.
    by rewrite (convert_unexaminable PIL refuses cwd set_order inp outp q ow w e Hd). }
  2:{ left. split; [by left|].
      by destruct (convert_bad_input PIL refuses cwd set_order inp outp q ow w Hd)
        as (w1 & -> & ?). }
  destruct (os.Path_mkdir refuses true true (fs w) (pathlib.Path_of_str outp))
    as [e|fs1] eqn:Hm.
  { left. split; [right; by exists e|].
    by rewrite (convert_mkdir_raises PIL refuses cwd set_order inp outp q ow w e Hd Hm). }
  right. exists fs1.
  destruct (decide (image_files set_order fs1 (pathlib.Path_of_str inp) = []))
    as [Hnil|Hne].
  - exists (mkWorld fs1 []), (inr (mkCounters 0 0 0)), (mkWorld fs1 []).
    rewrite (convert_run PIL refuses cwd set_order inp outp q ow w fs1 Hd Hm).
    by rewrite Hnil.
  - rewrite (convert_loop PIL refuses cwd set_order inp outp q ow w fs1 Hd Hm Hne).
    match goal with
    | |- context [for_ ?l ?b ?c ?W] =>
        exists W; destruct (for_ l b c W) as [r wl'] eqn:Hl
    end.
    exists r, wl'. by destruct r.
Qed.

(** X11.  Whatever the flags, a call of [convert_to_webp] changes the file
    system in two ways only: it makes directories that were not there (the
    output directory and its missing parents), and it writes regular files
    named [*.webp] directly in the output directory, never in place of a
    directory.  Every other path is left as it was: no file is removed, and
    no input file that is not such an output file is changed. *)
Theorem run_changes_only_webp_outputs (inp outp : string) (q : Z) (ow : bool)
    (w : World) (k : Path) :
  let op := pathlib.Path_of_str outp in
  let w' := (convert_to_webp PIL refuses cwd set_order inp outp q ow w).2 in
  fs w' !! k = fs w !! k
  ∨ (fs w !! k = None ∧ fs w' !! k = Some Dir)
  ∨ (fs w !! k ≠ Some Dir
     ∧ ∃ n d, k = op </> n ∧ Str.endswith n ".webp" = true
              ∧ fs w' !! k = Some (File d)).
Proof.
  cbv zeta.
  destruct (convert_outcomes inp outp q ow w)
    as [[_ Heq]|(fs1 & wl & c' & wl' & Hd & Hm & Hwl & Hl & Heq)];
    rewrite Heq; [by left|].
  pose proof (Path_mkdir_adds _ _ _ _ k Hm) as Hmk.
  destruct (loop_changes PIL refuses _ _ _ _ _ _ _ _ Hl k)
    as [Hk|(Hnd & g & d & _ & Hgo & Hk)]; rewrite Hwl in *.
  - rewrite Hk. destruct Hmk as [->|Hmk]; [by left | right; by left].
  - right. right. split.
    + destruct Hmk as [Hmk|[Hmk _]]; [by rewrite <- Hmk | by rewrite Hmk].
    + apply output_file_shape in Hgo as (n & -> & Hn). by exists n, d.
Qed.

(** X12.  Without [overwrite], a call of [convert_to_webp] leaves every path
    that exists exactly as it is: it only adds directories and files. *)
Theorem no_overwrite_changes_nothing_existing (inp outp : string) (q : Z) (w : World) :
  fs w ⊆ fs (convert_to_webp PIL refuses cwd set_order inp outp q false w).2.
Proof.
  destruct (convert_outcomes inp outp q false w)
    as [[_ Heq]|(fs1 & wl & c' & wl' & Hd & Hm & Hwl & Hl & Heq)];
    rewrite Heq; [done|].
  apply Path_mkdir_inr in Hm as [Hsub _].
  apply loop_no_overwrite_subseteq in Hl. rewrite Hwl in Hl. by etrans.
Qed.

(** X13.  In every call, a directory that was there is still there
    afterwards.  And after a call on an input folder that is a directory,
    when [mkdir] did not raise, the output directory exists and the input
    folder is still a directory. *)
Theorem directories_survive (inp outp : string) (q : Z) (ow : bool) (w : World) :
  let ip := pathlib.Path_of_str inp in
  let op := pathlib.Path_of_str outp in
  let w' := (convert_to_webp PIL refuses cwd set_order inp outp q ow w).2 in
  (∀ k, fs w !! k = Some Dir → fs w' !! k = Some Dir)
  ∧ (os.is_dir refuses (fs w) ip = inr true →
     ∀ fs1, os.Path_mkdir refuses true true (fs w) op = inr fs1 →
            fs w' !! op = Some Dir ∧ os.is_dir refuses (fs w') ip = inr true).
Proof.
  cbv zeta.
  destruct (convert_outcomes inp outp q ow w)
    as [[Hbad Heq]|(fs1 & wl & c' & wl' & Hd & Hm & Hwl & Hl & Heq)];
    rewrite Heq.
  { split; [done|]. intros Hd fs1 Hm. destruct Hbad as [Hb|[e He]]; congruence. }
  assert (∀ k, fs1 !! k = Some Dir → fs wl' !! k = Some Dir) as Hkeep.
  { intros k Hk.
    destruct (loop_changes PIL refuses _ _ _ _ _ _ _ _ Hl k) as [->|[Hnd _]];
      rewrite Hwl in *; done. }
  destruct (Path_mkdir_inr _ _ _ _ Hm) as [Hsub Hop].
  split.
  - intros k Hk. apply Hkeep. by eapply lookup_weaken.
  - intros _ fs1' Hm'. split; [by apply Hkeep|].
    apply is_dir_Some, Hkeep. apply is_dir_Some in Hd. by eapply lookup_weaken.
Qed.

End RunFrame.


(** ** Runs without errors *)

Section Complete.
Context (PIL : Pillow) (refuses : Refusals).

(** The error counter never goes down in a turn, and stays where it is only
    when the turn leaves the output file in place: the image file is its own
    output file, or the output file is there after the turn. *)
Lemma loop_body_error_count (out : Path) (q : Z) (ow : bool) (c c' : counters) (f o : Path) w w' :
  output_file_of out f = inr o →
  loop_body PIL refuses out q ow c f w = (inr c', w') →
  (error_count c ≤ error_count c')%nat
  ∧ (error_count c' = error_count c → f = o ∨ is_Some (fs w' !! o)).
Proof.
  intros Ho. rewrite (loop_body_run PIL refuses out q ow c f o w Ho).
  case_decide; [intros [= <- <-]; split; [done | by left]|].
  destruct (os.exists_ refuses (fs w) o) as [e|there] eqn:Hthere; [done|].
  destruct (there && negb ow) eqn:Hex.
  { intros [= <- <-]. split; [done|]. intros _. right.
    apply andb_true_iff in Hex as [-> _]. by apply exists_Some in Hthere. }
  simpl.
  destruct (attempt PIL f o q (fs w !! f) (fs w !! o) (fs w !! pathlib.parent o))
    as [data|e t]; intros [= <- <-]; simpl.
  - split; [done|]. intros _. right. rewrite lookup_insert_eq. by eexists.
  - split; [lia|]. lia.
Qed.

Lemma loop_error_count (out : Path) (q : Z) (ow : bool) (files : list Path) (c c' : counters) w w' :
  for_ files (loop_body PIL refuses out q ow) c w = (inr c', w') →
  (error_count c ≤ error_count c')%nat.
Proof.
  revert c w. induction files as [|f files IH]; intros c w.
  { by intros [= <- _]. }
  rewrite for_cons, bind_run.
  destruct (loop_body PIL refuses out q ow c f w) as [[e|c1] w1] eqn:Hb; [done|].
  intros Hl. apply IH in Hl.
  destruct (output_file_of out f) as [e|o] eqn:Ho.
  { unfold loop_body in Hb. by rewrite bind_run, Ho in Hb. }
  destruct (loop_body_error_count out q ow c c1 f o w w1 Ho Hb) as [Hle _]. lia.
Qed.

(** X15.  When the loop ends with the error counter where it started (a
    summary with "Errors: 0"), every image file it went over has its output
    file in the file system the loop leaves, or is its own output file. *)
Theorem no_errors_means_every_output_is_there (out : Path) (q : Z) (ow : bool)
    (files : list Path) (c c' : counters) (w w' : World) :
  for_ files (loop_body PIL refuses out q ow) c w = (inr c', w') →
  error_count c' = error_count c →
  Forall (λ f, ∃ o, output_file_of out f = inr o
                    ∧ (f = o ∨ is_Some (fs w' !! o))) files.
Proof.
  revert c w. induction files as [|f files IH]; intros c w; [constructor|].
  rewrite for_cons, bind_run.
  destruct (loop_body PIL refuses out q ow c f w) as [[e|c1] w1] eqn:Hb; [done|].
  intros Hl Herr.
  destruct (output_file_of out f) as [e|o] eqn:Ho.
  { unfold loop_body in Hb. by rewrite bind_run, Ho in Hb. }
  destruct (loop_body_error_count out q ow c c1 f o w w1 Ho Hb) as [Hle Hsame].
  pose proof (loop_error_count out q ow files c1 c' w1 w' Hl) as Hle'.
  constructor; [|apply (IH c1 w1 Hl); lia].
  exists o. split; [done|].
  destruct Hsame as [?|[x Hx]]; [lia | by left |]. right.
  destruct (loop_changes PIL refuses out q ow files c1 w1 _ w' Hl o)
    as [->|(_ & _ & d & _ & _ & ->)]; by eexists.
Qed.

End Complete.

(** ** The further properties at concrete inputs *)

(** X1 at the script name alone. *)
Lemma no_arguments_print_usage :
  (length [Example.script] < 3)%nat
  ∧ run_script Example.PIL Example.refuses Example.cwd SUPPORTED_FORMATS [Example.script] Example.photos
    = (1, mkWorld Example.photos usage).
Proof.
  assert (length [Example.script] < 3)%nat as Hlen by (simpl; lia).
  split; [exact Hlen|].
  exact (too_few_arguments_print_usage Example.PIL Example.refuses Example.cwd SUPPORTED_FORMATS
           [Example.script] Example.photos Hlen).
Defined.

Lemma accepted_quality (a : string) (v : Z) :
  int a = inr v → 1 ≤ v ≤ 100 → accepted a.
Proof. intros Hv Hr. right. right. by exists v. Qed.

(** X2 at [90 --overwrite abc --overwrite]. *)
Lemma overwrite_given_twice :
  let extras := ["90"; "--overwrite"; "abc"; "--overwrite"] in
  Forall accepted extras
  ∧ ∀ w, ∃ q, 1 ≤ q ≤ 100
       ∧ main Example.PIL Example.refuses Example.cwd SUPPORTED_FORMATS
           (Example.script :: "photos" :: "out" :: extras) w
         = convert_to_webp Example.PIL Example.refuses Example.cwd SUPPORTED_FORMATS "photos" "out" q
             (bool_decide ("--overwrite" ∈ extras)) w.
Proof.
  intros extras.
  assert (Forall accepted extras) as Hacc.
  { constructor; [apply (accepted_quality "90" 90); [by vm_compute | lia]|].
    constructor; [by left|].
    constructor; [right; left; by vm_compute|].
    constructor; [by left | constructor]. }
  split; [exact Hacc|]. intros w.
  exact (overwrite_flag_anywhere Example.PIL Example.refuses Example.cwd SUPPORTED_FORMATS
           Example.script "photos" "out" extras w Hacc).
Defined.

(** X3 at [50 --overwrite 90 abc]: the quality is 90. *)
Lemma quality_90_after_50 :
  (Forall accepted ["50"; "--overwrite"]
   ∧ int "90" = inr 90 ∧ 1 ≤ 90 ≤ 100
   ∧ Forall (λ b, Str.isdigit b = false) ["abc"])
  ∧ ∀ w, main Example.PIL Example.refuses Example.cwd SUPPORTED_FORMATS
           (Example.script :: "photos" :: "out"
              :: ["50"; "--overwrite"] ++ "90" :: ["abc"]) w
         = convert_to_webp Example.PIL Example.refuses Example.cwd SUPPORTED_FORMATS "photos" "out" 90
             (bool_decide ("--overwrite" ∈ (["50"; "--overwrite"] ++ ["abc"])%list)) w.
Proof.
  assert (Forall accepted ["50"; "--overwrite"]) as Hacc.
  { constructor; [apply (accepted_quality "50" 50); [by vm_compute | lia]|].
    constructor; [by left | constructor]. }
  assert (int "90" = inr 90) as Hv by (by vm_compute).
  assert (1 ≤ 90 ≤ 100) as Hr by lia.
  assert (Forall (λ b, Str.isdigit b = false) ["abc"]) as Hpost.
  { constructor; [by vm_compute | constructor]. }
  split; [split; [exact Hacc | split; [exact Hv | split; [exact Hr | exact Hpost]]]|].
  intros w.
  exact (last_quality_wins Example.PIL Example.refuses Example.cwd SUPPORTED_FORMATS
           Example.script "photos" "out" "90" _ _ 90 w Hacc Hv Hr Hpost).
Defined.






(** X7 and X8 at [photos/], with the formats iterated in reverse. *)
Lemma photos_image_files_in_reverse :
  reverse SUPPORTED_FORMATS ≡ₚ SUPPORTED_FORMATS
  ∧ (∀ f : Path,
       f ∈ image_files (reverse SUPPORTED_FORMATS) Example.photos ("", ["photos"]) ↔
       ∃ n suffix, f = ("", ["photos"]) </> n ∧ is_Some (Example.photos !! f)
                   ∧ suffix ∈ glob_suffixes ∧ Str.endswith n suffix = true).
Proof.
  assert (reverse SUPPORTED_FORMATS ≡ₚ SUPPORTED_FORMATS) as Hrev
    by apply reverse_Permutation.
  split; [exact Hrev|]. intros f.
  exact (image_files_are_the_matching_entries (reverse SUPPORTED_FORMATS) Hrev
           Example.photos ("", ["photos"]) f).
Defined.

Lemma photos_image_files_once :
  reverse SUPPORTED_FORMATS ≡ₚ SUPPORTED_FORMATS
  ∧ NoDup (image_files (reverse SUPPORTED_FORMATS) Example.photos ("", ["photos"])).
Proof.
  assert (reverse SUPPORTED_FORMATS ≡ₚ SUPPORTED_FORMATS) as Hrev
    by apply reverse_Permutation.
  split; [exact Hrev|].
  exact (no_image_file_is_listed_twice (reverse SUPPORTED_FORMATS) Hrev
           Example.photos ("", ["photos"])).
Defined.

Lemma a_png_is_an_image_file :
  ("", ["photos"; "a.png"])
  ∈ image_files SUPPORTED_FORMATS Example.photos ("", ["photos"]).
Proof. refine (bool_decide_unpack _ _). by vm_compute. Qed.

(** X9 at [photos/a.png]. *)
Lemma a_png_becomes_a_webp :
  (SUPPORTED_FORMATS ≡ₚ SUPPORTED_FORMATS
   ∧ ("", ["photos"; "a.png"])
     ∈ image_files SUPPORTED_FORMATS Example.photos ("", ["photos"]))
  ∧ ∃ stem suffix,
      suffix ∈ glob_suffixes
      ∧ ("", ["photos"; "a.png"]) = ("", ["photos"]) </> (stem ++ suffix)
      ∧ output_file_of ("", ["out"]) ("", ["photos"; "a.png"])
        = inr (("", ["out"]) </> (if Str.nonempty stem then stem ++ ".webp"
                                  else suffix ++ ".webp")).
Proof.
  split; [split; [reflexivity | exact a_png_is_an_image_file]|].
  exact (output_name_replaces_the_extension SUPPORTED_FORMATS Example.photos
           ("", ["photos"]) ("", ["out"]) ("", ["photos"; "a.png"])
           (reflexivity _) a_png_is_an_image_file).
Defined.

(** X10 at the name [c.webp]. *)
Lemma c_webp_in_place :
  "c.webp" ≠ ""
  ∧ ∀ inp out : Path,
      output_file_of out (inp </> "c.webp") = inr (inp </> "c.webp")
      ↔ out = inp ∧ ∃ stem, stem ≠ "" ∧ "c.webp" = stem ++ ".webp".
Proof.
  assert ("c.webp" ≠ "") as Hn by discriminate.
  split; [exact Hn|]. intros inp out.
  exact (own_output_exactly_for_webp_in_place inp out "c.webp" Hn).
Defined.

(** X11 at [photos/], converted into [out/] with [--overwrite], for the
    path [out/a.webp]. *)
Lemma photos_run_changes_only_webp_outputs :
  let op := pathlib.Path_of_str "out" in
  let w := mkWorld Example.photos [] in
  let k : Path := ("", ["out"; "a.webp"]) in
  let w' :=
    (convert_to_webp Example.PIL Example.refuses Example.cwd SUPPORTED_FORMATS "photos" "out" 85 true
       w).2 in
  fs w' !! k = fs w !! k
  ∨ (fs w !! k = None ∧ fs w' !! k = Some Dir)
  ∨ (fs w !! k ≠ Some Dir
     ∧ ∃ n d, k = op </> n ∧ Str.endswith n ".webp" = true
              ∧ fs w' !! k = Some (File d)).
Proof.
  intros op w k w'.
  exact (run_changes_only_webp_outputs Example.PIL Example.refuses Example.cwd SUPPORTED_FORMATS
           "photos" "out" 85 true w k).
Defined.

(** X12 at [photos/], converted into itself without [--overwrite]. *)
Lemma photos_in_place_changes_nothing_existing :
  Example.photos
  ⊆ fs (convert_to_webp Example.PIL Example.refuses Example.cwd SUPPORTED_FORMATS "photos" "photos"
          85 false (mkWorld Example.photos [])).2.
Proof.
  exact (no_overwrite_changes_nothing_existing Example.PIL Example.refuses Example.cwd
           SUPPORTED_FORMATS "photos" "photos" 85
           (mkWorld Example.photos [])).
Defined.

(** X13 at [photos/], converted into [out/]. *)
Lemma photos_directories_survive :
  let ip := pathlib.Path_of_str "photos" in
  let op := pathlib.Path_of_str "out" in
  let w := mkWorld Example.photos [] in
  let w' :=
    (convert_to_webp Example.PIL Example.refuses Example.cwd SUPPORTED_FORMATS "photos" "out" 85 true
       w).2 in
  (os.is_dir Example.refuses (fs w) ip = inr true
   ∧ os.Path_mkdir Example.refuses true true (fs w) op = inr (<[("", ["out"]) := Dir]> Example.photos))
  ∧ (∀ k, fs w !! k = Some Dir → fs w' !! k = Some Dir)
  ∧ fs w' !! op = Some Dir
  ∧ os.is_dir Example.refuses (fs w') ip = inr true.
Proof.
  intros ip op w w'.
  split; [split; [exact photos_is_a_directory | exact mkdir_out_in_photos]|].
  pose proof (directories_survive Example.PIL Example.refuses Example.cwd SUPPORTED_FORMATS
                "photos" "out" 85 true w) as [Hkeep Hout].
  split; [exact Hkeep|].
  exact (Hout photos_is_a_directory _ mkdir_out_in_photos).
Defined.


(** X15 at [photos/], converted into [out/]: the loop ends without errors. *)
Lemma photos_outputs_are_all_there :
  let out : Path := ("", ["out"]) in
  let files := image_files SUPPORTED_FORMATS (<[out := Dir]> Example.photos)
                 ("", ["photos"]) in
  let w := mkWorld (<[out := Dir]> Example.photos) [] in
  let c := mkCounters 0 0 0 in
  let r := for_ files (loop_body Example.PIL Example.refuses out 85 false) c w in
  (r.1 = inr (mkCounters 3 0 0) ∧ error_count (mkCounters 3 0 0) = error_count c)
  ∧ Forall (λ f, ∃ o, output_file_of out f = inr o
                      ∧ (f = o ∨ is_Some (fs r.2 !! o))) files.
Proof.
  intros out files w c r.
  assert (r.1 = inr (mkCounters 3 0 0)) as Hr by (by vm_compute).
  split; [split; [exact Hr | reflexivity]|].
  assert (r = (inr (mkCounters 3 0 0), r.2)) as Hrun
    by (rewrite <- Hr; by destruct r).
  exact (no_errors_means_every_output_is_there Example.PIL Example.refuses out 85 false files
           c (mkCounters 3 0 0) w r.2 Hrun eq_refl).
Defined.

Lemma mkdir_out_in_long :
  os.Path_mkdir Example.refuses true true Example.long (pathlib.Path_of_str "out")
    = inr (<[("", ["out"]) := Dir]> Example.long).
Proof.
  replace (pathlib.Path_of_str "out") with (("", []) </> "out" : Path)
    by (by vm_compute).
  replace (("", ["out"]) : Path) with (("", []) </> "out" : Path)
    by (by vm_compute).
  apply mkdir_fresh; by vm_compute.
Qed.

(** X16 at an input path of 300 bytes, and at [long/], converted into
    [out/]: [b.jpg] is converted, and [exists()] raises for the output file
    of the second image file, whose name has 256 bytes. *)
Lemma long_names_are_fatal :
  let too_long := str_mul "b" 300 in
  let out := pathlib.Path_of_str "out" in
  let w := mkWorld Example.long [] in
  let fs1 := <[("", ["out"]) := Dir]> Example.long in
  let files := image_files SUPPORTED_FORMATS fs1 (pathlib.Path_of_str "long") in
  let pre : list Path := [("", ["long"; "b.jpg"])] in
  let f : Path := ("", ["long"; Example.long_name]) in
  let o : Path := ("", ["out"; str_mul "a" 251 ++ ".webp"]) in
  let e := OSError FileNameTooLong o in
  let r := for_ pre (loop_body Example.PIL Example.refuses out 85 false) (mkCounters 0 0 0)
             (mkWorld fs1 (stdout w ++ header_lines Example.cwd out (length files) 85)) in
  (os.exists_ Example.refuses Example.photos (pathlib.Path_of_str too_long)
     = inl (OSError FileNameTooLong (pathlib.Path_of_str too_long))
   ∧ run_script Example.PIL Example.refuses Example.cwd SUPPORTED_FORMATS
       [Example.script; too_long; "out"] Example.photos
     = (1, mkWorld Example.photos []))
  ∧ (os.is_dir Example.refuses (fs w) (pathlib.Path_of_str "long") = inr true
     ∧ os.Path_mkdir Example.refuses true true (fs w) (pathlib.Path_of_str "out") = inr fs1
     ∧ files = (pre ++ f :: [])%list
     ∧ r.1 = inr (mkCounters 1 0 0)
     ∧ output_file_of out f = inr o
     ∧ f ≠ o
     ∧ os.exists_ Example.refuses (fs r.2) o = inl e)
  ∧ convert_to_webp Example.PIL Example.refuses Example.cwd SUPPORTED_FORMATS
      "long" "out" 85 false w = (inl e, r.2)
  ∧ stdout r.2 = (header_lines Example.cwd out 2 85 ++ ["Converted: b.jpg -> b.webp"])%list.
Proof.
  intros too_long out w fs1 files pre f o e r.
  assert (os.exists_ Example.refuses Example.photos (pathlib.Path_of_str too_long)
          = inl (OSError FileNameTooLong (pathlib.Path_of_str too_long))) as Hex0
    by (by vm_compute).
  assert (os.is_dir Example.refuses (fs w) (pathlib.Path_of_str "long") = inr true)
    as Hd by (by vm_compute).
  assert (files = (pre ++ f :: [])%list) as Hfiles by (by vm_compute).
  assert (r.1 = inr (mkCounters 1 0 0)) as Hr by (by vm_compute).
  assert (r = (inr (mkCounters 1 0 0), r.2)) as Hpre
    by (rewrite <- Hr; by destruct r).
  assert (output_file_of out f = inr o) as Ho by (by vm_compute).
  assert (f ≠ o) as Hne by (intros H; vm_compute in H; discriminate H).
  assert (os.exists_ Example.refuses (fs r.2) o = inl e) as Hex by (by vm_compute).
  split.
  { split; [exact Hex0|].
    exact (proj1 (unexaminable_path_is_fatal Example.PIL Example.refuses Example.cwd
                    SUPPORTED_FORMATS too_long "out")
             Example.script [] Example.photos _ (Forall_nil_2 _) Hex0). }
  split.
  { split; [exact Hd|]. split; [exact mkdir_out_in_long|]. split; [exact Hfiles|].
    split; [exact Hr|]. split; [exact Ho|]. split; [exact Hne | exact Hex]. }
  split; [|by vm_compute].
  exact (proj1 (proj2 (unexaminable_path_is_fatal Example.PIL Example.refuses Example.cwd
                         SUPPORTED_FORMATS "long" "out")
                  85 false w fs1 pre f [] o e (mkCounters 1 0 0) r.2
                  Hd mkdir_out_in_long Hfiles Hpre Ho Hne Hex)).
Defined.
